(** * GeosLibrary: download, extract, patch and build the GEOS sources

    A shallow embedding of [packages/basemap/utils/GeosLibrary.py].

    The class talks to the outside world through [os], [shutil], [io],
    [glob], [zipfile], [tempfile], [urllib] and [subprocess].  Those calls
    are modelled over an explicit world (a file system, the process working
    directory, the log of launched processes) in a state-and-exception
    monad; what the interpreter, the network, the archive codec and the
    build tool decide is collected in a [platform] record.

    Conventions.
    - Python [str] values that name things (versions, arguments, messages,
      path components) are [string]; file contents are [bytes].
    - A path is the list of its components below the file system root; all
      paths are absolute and normalised, [os.path.join p c] is [p ++ [c]]
      and [os.path.abspath] is the identity.
    - Text is kept in its UTF-8 encoding.  Both patch texts are ASCII, so
      replacing on the encoding is replacing on the code points.
    - Python 3 semantics throughout. *)

From Stdlib Require Import ZArith NArith String Ascii List DecimalString DecimalZ DecimalN.
From stdpp Require Import gmap strings list fin_maps sorting.

Local Open Scope string_scope.
Local Open Scope list_scope.
Local Open Scope Z_scope.

(** ** Python built-ins used by the class *)

Definition bytes := list ascii.

Definition encode (s : string) : bytes := list_ascii_of_string s.

(** [int(s)] on an ASCII string: surrounding white space is dropped, one
    sign is allowed, and the digits may be separated by single
    underscores.  [None] stands for [ValueError]. *)

Definition isspace (c : ascii) : bool :=
  let n := N_of_ascii c in
  ((9 <=? n)%N && (n <=? 13)%N) || (n =? 32)%N.

Definition isdigit (c : ascii) : bool :=
  let n := N_of_ascii c in (48 <=? n)%N && (n <=? 57)%N.

Fixpoint lstrip (s : string) : string :=
  match s with
  | EmptyString => EmptyString
  | String c s' => if isspace c then lstrip s' else s
  end.

Fixpoint rstrip (s : string) : string :=
  match s with
  | EmptyString => EmptyString
  | String c s' =>
      match rstrip s' with
      | EmptyString => if isspace c then EmptyString else String c EmptyString
      | t => String c t
      end
  end.

Definition strip (s : string) : string := rstrip (lstrip s).

(** The digits of [digit (_? digit)*], or [None] when the text is not of
    that shape. *)
Fixpoint digits_of (after_digit : bool) (s : string) : option string :=
  match s with
  | EmptyString => if after_digit then Some EmptyString else None
  | String c s' =>
      if Ascii.eqb c "_" then
        if after_digit then digits_of false s' else None
      else if isdigit c then option_map (String c) (digits_of true s')
      else None
  end.

Definition int (s : string) : option Z :=
  let t := strip s in
  let '(negative, body) :=
    match t with
    | String c r =>
        if Ascii.eqb c "-" then (true, r)
        else if Ascii.eqb c "+" then (false, r)
        else (false, t)
    | EmptyString => (false, t)
    end in
  match digits_of false body with
  | Some ds =>
      match NilEmpty.uint_of_string ds with
      | Some d => Some (if negative then - Z.of_uint d else Z.of_uint d)
      | None => None
      end
  | None => None
  end.

(** [str(n)] and ["{0:d}".format(n)] for an [int]. *)
Definition str (z : Z) : string := NilZero.string_of_int (Z.to_int z).

(** [s.split(sep)] for a one-character separator. *)
Fixpoint split (sep : ascii) (s : string) : list string :=
  match s with
  | EmptyString => [EmptyString]
  | String c s' =>
      if Ascii.eqb c sep then EmptyString :: split sep s'
      else match split sep s' with
           | f :: fs => String c f :: fs
           | [] => [String c EmptyString]
           end
  end.

(** [sep.join(l)]. *)
Definition join (sep : string) (l : list string) : string := String.concat sep l.

(** [tuple(map(int, l))]: the first field that does not parse raises. *)
Fixpoint map_int (l : list string) : option (list Z) :=
  match l with
  | [] => Some []
  | f :: fs =>
      match int f with
      | Some z => option_map (cons z) (map_int fs)
      | None => None
      end
  end.

(** [a < b] on tuples of integers: lexicographic, a proper prefix is
    smaller. *)
Fixpoint tuple_lt (a b : list Z) : bool :=
  match a, b with
  | [], [] => false
  | [], _ :: _ => true
  | _ :: _, [] => false
  | x :: a', y :: b' => if x =? y then tuple_lt a' b' else x <? y
  end.

(** [p] is a prefix of [s] ([s.startswith(p)]). *)
Fixpoint startswith (p s : bytes) : bool :=
  match p, s with
  | [], _ => true
  | _ :: _, [] => false
  | a :: p', b :: s' => Ascii.eqb a b && startswith p' s'
  end.

(** [p in s]. *)
Fixpoint contains (p s : bytes) : bool :=
  startswith p s ||
  match s with
  | [] => false
  | _ :: s' => contains p s'
  end.

(** [s.replace(old, new)] for a non-empty [old]: the text is scanned from
    the left; where [old] starts, [new] is emitted and the scan resumes
    behind the match ([skip] counts the characters of the match still to be
    passed over). *)
Fixpoint replace_from (old new : bytes) (skip : nat) (s : bytes) : bytes :=
  match s with
  | [] => []
  | c :: s' =>
      match skip with
      | S k => replace_from old new k s'
      | O =>
          if startswith old s
          then new ++ replace_from old new (length old - 1) s'
          else c :: replace_from old new 0 s'
      end
  end.

Definition replace (old new s : bytes) : bytes := replace_from old new 0 s.

Definition LF : ascii := "010"%char.
Definition CR : ascii := "013"%char.

(** Text mode with [newline=None]: on input, "\r\n" and a lone "\r" are
    read as "\n". *)
Fixpoint universal_newlines (s : bytes) : bytes :=
  match s with
  | [] => []
  | c :: s' =>
      if Ascii.eqb c CR then
        match s' with
        | d :: s'' =>
            if Ascii.eqb d LF then LF :: universal_newlines s''
            else LF :: universal_newlines s'
        | [] => [LF]
        end
      else c :: universal_newlines s'
  end.

(** The lines of a text, each with its terminator. *)
Fixpoint splitlines (s : bytes) : list bytes :=
  match s with
  | [] => []
  | c :: s' =>
      if Ascii.eqb c LF then [LF] :: splitlines s'
      else match splitlines s' with
           | l :: ls => (c :: l) :: ls
           | [] => [[c]]
           end
  end.

(** The strict UTF-8 decoder accepts exactly the well-formed sequences
    (no overlong forms, no surrogates, nothing above U+10FFFF). *)
Definition between (lo hi : N) (c : ascii) : bool :=
  let n := N_of_ascii c in (lo <=? n)%N && (n <=? hi)%N.

Fixpoint utf8_valid (s : bytes) : bool :=
  match s with
  | [] => true
  | b0 :: s1 =>
      if between 0 127 b0 then utf8_valid s1
      else if between 194 223 b0 then
        match s1 with
        | b1 :: s2 => between 128 191 b1 && utf8_valid s2
        | _ => false
        end
      else if between 224 239 b0 then
        match s1 with
        | b1 :: b2 :: s3 =>
            (if between 224 224 b0 then between 160 191 b1
             else if between 237 237 b0 then between 128 159 b1
             else between 128 191 b1)
            && between 128 191 b2 && utf8_valid s3
        | _ => false
        end
      else if between 240 244 b0 then
        match s1 with
        | b1 :: b2 :: b3 :: s4 =>
            (if between 240 240 b0 then between 144 191 b1
             else if between 244 244 b0 then between 128 143 b1
             else between 128 191 b1)
            && between 128 191 b2 && between 128 191 b3 && utf8_valid s4
        | _ => false
        end
      else false
  end.

(** [fd.readlines()] of a file opened with [io.open(_, "r",
    encoding="utf-8")]; [None] stands for [UnicodeDecodeError]. *)
Definition readlines (data : bytes) : option (list bytes) :=
  if utf8_valid data then Some (splitlines (universal_newlines data)) else None.

(** ** Exceptions *)

Inductive exc_class :=
  | OSError | FileExistsError | FileNotFoundError | NotADirectoryError
  | IsADirectoryError | PermissionError | URLError
  | TypeError | ValueError | UnicodeDecodeError | BadZipFile.

#[global] Instance exc_class_eq_dec : EqDecision exc_class.
Proof. solve_decision. Defined.

Record exn := Exn { exn_class : exc_class; exn_msg : string }.

(** [isinstance(e, OSError)]: the file system errors and [URLError] derive
    from [OSError]. *)
Definition is_OSError (c : exc_class) : bool :=
  match c with
  | OSError | FileExistsError | FileNotFoundError | NotADirectoryError
  | IsADirectoryError | PermissionError | URLError => true
  | TypeError | ValueError | UnicodeDecodeError | BadZipFile => false
  end.

Definition is_FileExistsError (c : exc_class) : bool :=
  bool_decide (c = FileExistsError).

Definition is_TypeError (c : exc_class) : bool :=
  bool_decide (c = TypeError).

(** ** The world *)

Definition path := list string.

(** [os.path.dirname]. *)
Definition dirname (p : path) : path := removelast p.

(** A directory entry: permission bits, and for a regular file the time
    stamp given to it by [os.utime] (if any) and its content. *)
Inductive node :=
  | Dir (mode : N)
  | File (mode : N) (mtime : option Z) (data : bytes).

(** One launched process: its command line, its environment and the
    directory it was started in. *)
Record invocation := Invocation {
  inv_argv : list string;
  inv_env : gmap string string;
  inv_cwd : path
}.

Record world := World {
  fs : gmap path node;
  cwd : path;
  calls : list invocation
}.

Definition set_fs (f : gmap path node) (w : world) : world :=
  World f (cwd w) (calls w).

Definition set_cwd (p : path) (w : world) : world :=
  World (fs w) p (calls w).

Definition log_call (i : invocation) (w : world) : world :=
  World (fs w) (cwd w) (calls w ++ [i]).

(** ** State and exceptions *)

Inductive result (A : Type) :=
  | Ok (a : A)
  | Raise (e : exn).
Arguments Ok {A} a.
Arguments Raise {A} e.

Definition M (A : Type) : Type := world -> result A * world.

Definition ret {A} (a : A) : M A := fun w => (Ok a, w).

Definition bind {A B} (m : M A) (k : A -> M B) : M B :=
  fun w =>
    match m w with
    | (Ok a, w') => k a w'
    | (Raise e, w') => (Raise e, w')
    end.

Declare Scope M_scope.
Delimit Scope M_scope with M.
Notation "x ← y ; z" := (bind y (fun x => z))
  (at level 20, y at level 100, z at level 200) : M_scope.
Notation "x ;; z" := (bind x (fun _ => z))
  (at level 100, z at level 200, right associativity) : M_scope.
Local Open Scope M_scope.

Definition raise {A} (c : exc_class) (msg : string) : M A :=
  fun w => (Raise (Exn c msg), w).

Definition pass : M unit := ret tt.

(** [try: m  except C: h] for the classes [C] accepted by [catches]. *)
Definition try_except {A} (m : M A) (catches : exc_class -> bool) (h : M A) : M A :=
  fun w =>
    match m w with
    | (Ok a, w') => (Ok a, w')
    | (Raise e, w') => if catches (exn_class e) then h w' else (Raise e, w')
    end.

(** [try: m  finally: f]; an exception of [f] replaces the outcome of [m]. *)
Definition try_finally {A} (m : M A) (f : M unit) : M A :=
  fun w =>
    match m w with
    | (r, w') =>
        match f w' with
        | (Ok _, w'') => (r, w'')
        | (Raise e, w'') => (Raise e, w'')
        end
    end.

(** ** What the platform decides *)

Record response := Response {
  last_modified : option string;   (* the Last-Modified header *)
  body : bytes
}.

(** An archive member: its name split at the separators, whether it is a
    directory entry, and its content. *)
Record member := Member {
  m_name : list string;
  m_dir : bool;
  m_data : bytes
}.

Record platform := Platform {
  os_name : string;                      (* os.name *)
  sep : string;                          (* os.sep *)
  calcsize_P : Z;                        (* struct.calcsize("P") *)
  environ : gmap string string;          (* os.environ *)
  umask : N;
  home : option path;                    (* what "~" expands to *)
  tempdir : path;                        (* tempfile.gettempdir() *)
  temp_names : list string;              (* the random names tempfile tries *)
  has_SSLContext : bool;                 (* ssl has SSLContext and PROTOCOL_TLSv1_2 *)
  (* urlopen(link) when the flag is false, urlopen(link, context=...) otherwise *)
  urlopen : string -> bool -> result response;
  (* datetime.strptime(date, fmt), read as UTC, as a time stamp; None
     when the text does not match the format *)
  strptime : string -> string -> option Z;
  (* the members of a zip archive; None when the data is not one *)
  zip_members : bytes -> option (list member);
  (* an external program run to completion: the file system it leaves and
     its exit status; None when the program cannot be started *)
  run : list string -> gmap string string -> path -> gmap path node ->
        option (gmap path node * Z)
}.

(** ** The [os], [shutil], [io], [glob], [zipfile] and [tempfile] calls *)

(** Owner permission bits.  Write permission on the containing directory
    is checked where an entry is created or removed, read and write
    permission on a file where it is opened, search permission on a
    directory where it is entered. *)
Definition readable (mode : N) : bool := N.testbit mode 8.
Definition writable (mode : N) : bool := N.testbit mode 7.
Definition searchable (mode : N) : bool := N.testbit mode 6.

Definition ENOENT : string := "No such file or directory".
Definition EEXIST : string := "File exists".
Definition ENOTDIR : string := "Not a directory".
Definition EISDIR : string := "Is a directory".
Definition EACCES : string := "Permission denied".

(** [os.path.exists] and [os.path.isdir]. *)
Definition path_exists (p : path) : M bool :=
  fun w => (Ok (bool_decide (is_Some (fs w !! p))), w).

Definition path_isdir (p : path) : M bool :=
  fun w => (Ok (match fs w !! p with Some (Dir _) => true | _ => false end), w).

(** Creating the entry [p] with node [n]: the name must be free and the
    containing directory writable. *)
Definition create (p : path) (n : node) : M unit :=
  fun w =>
    match fs w !! p with
    | Some _ => raise FileExistsError EEXIST w
    | None =>
        match fs w !! dirname p with
        | None => raise FileNotFoundError ENOENT w
        | Some (File _ _ _) => raise NotADirectoryError ENOTDIR w
        | Some (Dir m) =>
            if writable m then (Ok tt, set_fs (<[p := n]> (fs w)) w)
            else raise PermissionError EACCES w
        end
    end.

(** [os.chmod]. *)
Definition chmod (p : path) (mode : N) : M unit :=
  fun w =>
    match fs w !! p with
    | None => raise FileNotFoundError ENOENT w
    | Some (Dir _) => (Ok tt, set_fs (<[p := Dir mode]> (fs w)) w)
    | Some (File _ t d) => (Ok tt, set_fs (<[p := File mode t d]> (fs w)) w)
    end.

(** [os.utime(p, (t, t))]. *)
Definition utime (p : path) (t : Z) : M unit :=
  fun w =>
    match fs w !! p with
    | None => raise FileNotFoundError ENOENT w
    | Some (Dir _) => (Ok tt, w)
    | Some (File m _ d) => (Ok tt, set_fs (<[p := File m (Some t) d]> (fs w)) w)
    end.

(** [os.unlink]. *)
Definition unlink (p : path) : M unit :=
  fun w =>
    match fs w !! p with
    | None => raise FileNotFoundError ENOENT w
    | Some (Dir _) => raise IsADirectoryError EISDIR w
    | Some (File _ _ _) =>
        match fs w !! dirname p with
        | Some (Dir m) =>
            if writable m then (Ok tt, set_fs (delete p (fs w)) w)
            else raise PermissionError EACCES w
        | _ => raise FileNotFoundError ENOENT w
        end
    end.

(** [shutil.rmtree]: the directory and everything below it go.  The
    directories inside the tree are taken to be writable. *)
Definition rmtree (p : path) : M unit :=
  fun w =>
    match fs w !! p with
    | None => raise FileNotFoundError ENOENT w
    | Some (File _ _ _) => raise NotADirectoryError ENOTDIR w
    | Some (Dir _) =>
        match fs w !! dirname p with
        | Some (Dir m) =>
            if writable m
            then (Ok tt, set_fs (filter (fun kv => ¬ p `prefix_of` kv.1) (fs w)) w)
            else raise PermissionError EACCES w
        | _ => raise FileNotFoundError ENOENT w
        end
    end.

(** [os.getcwd] fails once the working directory has been removed. *)
Definition getcwd : M path :=
  fun w =>
    match fs w !! cwd w with
    | Some (Dir _) => (Ok (cwd w), w)
    | _ => raise FileNotFoundError ENOENT w
    end.

(** [os.chdir]. *)
Definition chdir (p : path) : M unit :=
  fun w =>
    match fs w !! p with
    | None => raise FileNotFoundError ENOENT w
    | Some (File _ _ _) => raise NotADirectoryError ENOTDIR w
    | Some (Dir m) =>
        if searchable m then (Ok tt, set_cwd p w)
        else raise PermissionError EACCES w
    end.

(** Reading a whole file opened in binary mode. *)
Definition read_bytes (p : path) : M bytes :=
  fun w =>
    match fs w !! p with
    | None => raise FileNotFoundError ENOENT w
    | Some (Dir _) => raise IsADirectoryError EISDIR w
    | Some (File m _ d) =>
        if readable m then (Ok d, w) else raise PermissionError EACCES w
    end.

(** [glob.glob(os.path.join(d, "*.sh"))]: the entries of [d] whose name
    ends in ".sh" and does not start with a dot (names are compared as
    they are, as on POSIX). *)
Definition endswith (suffix s : string) : bool :=
  startswith (rev (encode suffix)) (rev (encode s)).

Definition fnmatch_sh (name : string) : bool :=
  negb (startswith (encode ".") (encode name)) && endswith ".sh" name.

Definition is_script_of (d p : path) : bool :=
  match last p with
  | Some name => bool_decide (p = d ++ [name]) && fnmatch_sh name
  | None => false
  end.

Definition glob_sh (d : path) : M (list path) :=
  fun w =>
    (Ok (match fs w !! d with
         | Some (Dir _) => filter (fun p => is_script_of d p = true) (map_to_list (fs w)).*1
         | _ => []
         end), w).

Section Platform.

Variable pf : platform.

(** Modes of new entries: [0o777 & ~umask] for directories, [0o666 &
    ~umask] for files. *)
Definition dir_mode : N := N.ldiff 511 (umask pf).
Definition file_mode : N := N.ldiff 438 (umask pf).

(** A path as the text the program prints and passes on. *)
Definition path_str (p : path) : string :=
  match p with
  | [] => sep pf
  | _ => String.concat EmptyString (map (fun c => sep pf +:+ c) p)
  end.

(** [sorted] on path names. *)
Definition path_le (a b : path) : Prop :=
  String.leb (path_str a) (path_str b) = true.

#[global] Instance path_le_dec a b : Decision (path_le a b).
Proof. unfold path_le. apply _. Defined.

Definition sorted (l : list path) : list path := merge_sort path_le l.

(** [os.mkdir]. *)
Definition mkdir (p : path) (mode : N) : M unit := create p (Dir mode).

(** [os.makedirs(p)], by recursion on the reversed path: the parent is
    made first when it is missing (a concurrent creation is tolerated),
    then the directory itself. *)
Fixpoint makedirs_rev (rp : list string) : M unit :=
  match rp with
  | [] => mkdir [] dir_mode
  | tail :: rhead =>
      head_exists ← path_exists (rev rhead);
      (if head_exists then pass
       else try_except (makedirs_rev rhead) is_FileExistsError pass);;
      mkdir (rev rhead ++ [tail]) dir_mode
  end.

Definition makedirs (p : path) : M unit := makedirs_rev (rev p).

(** Opening [p] with mode "wb", writing [data] and closing. *)
Definition write_bytes (p : path) (data : bytes) : M unit :=
  fun w =>
    match fs w !! p with
    | Some (Dir _) => raise IsADirectoryError EISDIR w
    | Some (File m _ _) =>
        if writable m then (Ok tt, set_fs (<[p := File m None data]> (fs w)) w)
        else raise PermissionError EACCES w
    | None => create p (File file_mode None data) w
    end.

(** [ZipFile(p, "r")]. *)
Definition ZipFile (p : path) : M (list member) :=
  data ← read_bytes p;
  match zip_members pf data with
  | Some ms => ret ms
  | None => raise BadZipFile "File is not a zip file"
  end.

(** [ZipFile.extractall(dest)]: member by member, missing upper
    directories are made, a directory entry makes its directory, a file
    entry is written. *)
Definition extract_member (dest : path) (m : member) : M unit :=
  let target := dest ++ m_name m in
  let upperdirs := dirname target in
  upper_exists ← path_exists upperdirs;
  (if upper_exists then pass else makedirs upperdirs);;
  if m_dir m then
    target_isdir ← path_isdir target;
    if target_isdir then pass else mkdir target dir_mode
  else write_bytes target (m_data m).

Fixpoint extractall (dest : path) (ms : list member) : M unit :=
  match ms with
  | [] => pass
  | m :: ms' => extract_member dest m;; extractall dest ms'
  end.

(** [tempfile]: the candidate names are tried in turn; a name that is
    taken is skipped. *)
Fixpoint mktemp (n : node) (before after : string) (names : list string) : M path :=
  match names with
  | [] => raise FileExistsError "No usable temporary name found"
  | name :: names' =>
      let p := tempdir pf ++ [before +:+ name +:+ after] in
      try_except (create p n;; ret p) is_FileExistsError (mktemp n before after names')
  end.

Definition mkdtemp (before : string) : M path :=
  mktemp (Dir 448) before EmptyString (temp_names pf).

Definition NamedTemporaryFile (suffix : string) : M path :=
  mktemp (File 384 None []) "tmp" suffix (temp_names pf).

(** [subprocess.call(args, env=env)]: the program runs in the current
    directory; its exit status is the value of the call. *)
Definition subprocess_call (args : list string) (env : gmap string string) : M Z :=
  fun w =>
    match run pf args env (cwd w) (fs w) with
    | Some (f, status) =>
        (Ok status, set_fs f (log_call (Invocation args env (cwd w)) w))
    | None => raise FileNotFoundError ENOENT w
    end.

(** [for x in l: body x]. *)
Fixpoint for_each {A} (l : list A) (body : A -> M unit) : M unit :=
  match l with
  | [] => pass
  | x :: l' => body x;; for_each l' body
  end.

(** [s.rsplit(sep, 1)[-1]]: what follows the last separator. *)
Definition last_field (c : ascii) (s : string) : string :=
  List.last (split c s) EmptyString.

(** [os.path.splitext(p)[-1]]: the extension starts at the last dot of the
    last component, unless only dots precede it there. *)
Definition splitext_ext (p : string) : string :=
  let fields := split "." (last_field "/" p) in
  if existsb (fun f => negb (String.eqb f EmptyString)) (removelast fields)
  then "." +:+ List.last fields EmptyString
  else EmptyString.

(** ** The class *)

Definition URL_DATETIME_FMT : string := "%a, %d %b %Y %H:%M:%S GMT".
Definition GEOS_BASEURL : string := "https://github.com/libgeos/geos/archive/refs/tags".

Record GeosLibrary := {
  version_tuple : list Z;
  temp : bool;
  root : path
}.

(** [GeosLibrary(version, root)]. *)
Definition __init__ (version : string) (root : option path) : M GeosLibrary :=
  match map_int (split "." version) with
  | None => raise ValueError "invalid literal for int() with base 10"
  | Some vt =>
      match root with
      | None =>
          r ← mkdtemp "tmp_geoslibrary_";
          ret {| version_tuple := vt; temp := true; root := r |}
      | Some r =>
          try_except (makedirs r) is_OSError pass;;
          ret {| version_tuple := vt; temp := false; root := r |}
      end
  end.


(** The [version] property. *)
Definition version (self : GeosLibrary) : string :=
  join "." (map str (version_tuple self)).

Definition lift {A} (r : result A) : M A := fun w => (r, w).

Definition download (self : GeosLibrary) : M unit :=
  (* Define download link. *)
  let link := GEOS_BASEURL +:+ "/" +:+ version self +:+ ".zip" in
  let suffix := splitext_ext link in
  (* Define output path. *)
  let zipname := "geos-" +:+ last_field "/" link in
  let zippath := root self ++ [zipname] in
  (* Handle creation of the HTTP request. *)
  conn ← try_except (lift (urlopen pf link (has_SSLContext pf))) is_TypeError
                    (lift (urlopen pf link false));
  (* Try to get the file timestamp from the HTTP request header. *)
  date ← match last_modified conn with
         | None => ret None
         | Some d =>
             match strptime pf d URL_DATETIME_FMT with
             | Some t => ret (Some t)
             | None => raise ValueError "time data does not match format"
             end
         end;
  tmpzip ← NamedTemporaryFile suffix;
  try_finally
    ((* Copy the buffer into a temporary file. *)
     write_bytes tmpzip (body conn);;
     (* Move the file descriptor pointer to the beginning and simply copy
        it to the final destination. *)
     data ← read_bytes tmpzip;
     write_bytes zippath data)
    (unlink tmpzip);;
  (* Assign the timestamps to the final file if available. *)
  match date with
  | Some t => utime zippath t
  | None => pass
  end.

Definition zippath (self : GeosLibrary) : path :=
  root self ++ ["geos-" +:+ version self +:+ ".zip"].

Definition zipfold (self : GeosLibrary) : path :=
  root self ++ ["geos-" +:+ version self].

Definition cmakefile (self : GeosLibrary) : path :=
  zipfold self ++ ["capi"; "CMakeLists.txt"].

Definition svn_hfile (self : GeosLibrary) : path :=
  zipfold self ++ ["geos_svn_revision.h"].

Definition oldtext : bytes := encode "target_link_libraries(geos_c geos)".
Definition newtext : bytes := encode "target_link_libraries(geos_c geos-static)".
Definition svn_text : bytes := encode "#define GEOS_SVN_REVISION 0".

Definition already_exists (self : GeosLibrary) : string :=
  "folder '" +:+ path_str (zipfold self) +:+ "' already exists".

(** The steps of [extract], in the order of the source. *)

(* Download zip file if not present. *)
Definition extract_fetch (self : GeosLibrary) : M unit :=
  zip_present ← path_exists (zippath self);
  if zip_present then pass else download self.

(* Remove destination folder if present and requested. *)
Definition extract_clear (self : GeosLibrary) (overwrite : bool) : M unit :=
  fold_present ← path_exists (zipfold self);
  if fold_present then
    if negb overwrite then raise OSError (already_exists self)
    else rmtree (zipfold self)
  else pass.

(* Decompress zip file. *)
Definition extract_unzip (self : GeosLibrary) : M unit :=
  fd ← ZipFile (zippath self);
  extractall (root self) fd.

(* Ensure that GEOS internal sh scripts can be executed. *)
Definition extract_chmod (self : GeosLibrary) : M unit :=
  scripts ← glob_sh (zipfold self ++ ["tools"]);
  for_each (sorted scripts) (fun p => chmod p 493).

(* Patch CMakeLists so that libgeos_c.so does not depend on libgeos.so. *)
Definition patch_line (line : bytes) : bytes := replace oldtext newtext line.

Definition extract_patch (self : GeosLibrary) : M unit :=
  data ← read_bytes (cmakefile self);
  match readlines data with
  | None => raise UnicodeDecodeError "invalid utf-8"
  | Some lines => write_bytes (cmakefile self) (concat (map patch_line lines))
  end.

(* The SVN revision file is not created on the fly before 3.6.0. *)
Definition extract_svn (self : GeosLibrary) : M unit :=
  if tuple_lt (version_tuple self) [3; 6; 0] then
    svn_present ← path_exists (svn_hfile self);
    if negb svn_present then write_bytes (svn_hfile self) svn_text else pass
  else pass.

Definition extract (self : GeosLibrary) (overwrite : bool) : M unit :=
  extract_fetch self;;
  extract_clear self overwrite;;
  extract_unzip self;;
  extract_chmod self;;
  extract_patch self;;
  extract_svn self.

(** The option lists and the environment of [build]. *)

Definition on_nt : bool := String.eqb (os_name pf) "nt".

(* Define configure options. *)
Definition config_opts (self : GeosLibrary) (installdir : path) : list string :=
  let config_opts :=
    [ "-DCMAKE_INSTALL_PREFIX=" +:+ path_str installdir;
      "-DGEOS_ENABLE_TESTS=OFF";
      "-DCMAKE_BUILD_TYPE=Release" ] in
  if on_nt && tuple_lt (version_tuple self) [3; 6; 0]
  then ["-G"; "NMake Makefiles"] ++ config_opts
  else config_opts.

(* Define build options. *)
Definition build_opts_env (self : GeosLibrary) (njobs : Z)
  : list string * gmap string string :=
  let build_env := environ pf in
  let build_opts := ["--config"; "Release"; "--target"; "install"] in
  if negb on_nt then
    (build_opts, <["MAKEFLAGS" := "-j " +:+ str njobs]> build_env)
  else if tuple_lt (version_tuple self) [3; 6; 0] then
    let win64 := 8 * calcsize_P pf =? 64 in
    (build_opts ++
       [ "--";
         "WIN64=" +:+ (if win64 then "YES" else "NO");
         "BUILD_BATCH=" +:+ (if njobs >? 1 then "YES" else "NO") ],
     build_env)
  else (["-j"; str njobs] ++ build_opts, build_env).

Definition build_opts (self : GeosLibrary) (njobs : Z) : list string :=
  fst (build_opts_env self njobs).

Definition build_env (self : GeosLibrary) (njobs : Z) : gmap string string :=
  snd (build_opts_env self njobs).

(** [os.path.abspath(os.path.expanduser("~/.local/share/libgeos"))]: when
    the home directory is unknown the text is left as it is and read
    relative to the working directory. *)
Definition default_installdir : M path :=
  match home pf with
  | Some h => ret (h ++ [".local"; "share"; "libgeos"])
  | None => here ← getcwd; ret (here ++ ["~"; ".local"; "share"; "libgeos"])
  end.

Definition build (self : GeosLibrary) (installdir : option path) (njobs : Z) : M unit :=
  (* Download and extract zip file if not present. *)
  extract self true;;
  (* Define build directory. *)
  let builddir := zipfold self ++ ["build"] in
  (* Define installation directory. *)
  installdir ← match installdir with
               | None => default_installdir
               | Some d => ret d
               end;
  (* Now move to the GEOS source code folder and build with CMake. *)
  cwd ← getcwd;
  try_finally
    ((* Ensure that the build directory exists. *)
     try_except (makedirs builddir) is_OSError pass;;
     chdir builddir;;
     (* Call cmake configure. *)
     _ ← subprocess_call (["cmake"; ".."] ++ config_opts self installdir) (environ pf);
     (* Ensure that the install directory exists. *)
     try_except (makedirs installdir) is_OSError pass;;
     (* Call cmake build and install. *)
     _ ← subprocess_call (["cmake"; "--build"; "."] ++ build_opts self njobs)
                         (build_env self njobs);
     pass)
    (chdir cwd).

End Platform.

(** ** Notions used in the statements *)

Fixpoint has_char (c : ascii) (s : string) : bool :=
  match s with
  | EmptyString => false
  | String a s' => Ascii.eqb a c || has_char c s'
  end.

Fixpoint all_digits (s : string) : bool :=
  match s with
  | EmptyString => true
  | String a s' => isdigit a && all_digits s'
  end.



(** Every exception [m] can raise belongs to a class accepted by [P]. *)
Definition raises_only {A} (P : exc_class -> bool) (m : M A) : Prop :=
  forall w e w', m w = (Raise e, w') -> P (exn_class e) = true.

(** [m] neither moves the process to another directory nor launches a
    program. *)
Definition keeps_process {A} (m : M A) : Prop :=
  forall w r w', m w = (r, w') -> cwd w' = cwd w /\ calls w' = calls w.

(** [m] changes no entry of the file system outside [S]. *)
Definition only_touches {A} (S : path -> Prop) (m : M A) : Prop :=
  forall w r w' q, m w = (r, w') -> ~ S q -> fs w' !! q = fs w !! q.

(** The directory [p] exists and may be entered. *)
Definition can_enter (f : gmap path node) (p : path) : bool :=
  match f !! p with
  | Some (Dir m) => searchable m
  | _ => false
  end.

(** The extracted tree: [extract] up to and including the decompression. *)
Definition extract_tree (pf : platform) (self : GeosLibrary) (overwrite : bool) : M unit :=
  extract_fetch pf self;; extract_clear pf self overwrite;; extract_unzip pf self.

(** The scripts [extract] makes executable. *)
Definition is_tool (self : GeosLibrary) (q : path) : Prop :=
  exists name, q = zipfold self ++ ["tools"; name].

(** A command-line argument that sets the number of jobs: [-j], [-jN] or
    [--parallel]. *)
Definition job_count_flag (a : string) : bool :=
  String.prefix "-j" a || String.prefix "--parallel" a.

(** The two [cmake] invocations of [build] for the install directory [d]. *)
Definition configure_call (pf : platform) (self : GeosLibrary) (d : path) : invocation :=
  Invocation (["cmake"; ".."] ++ config_opts pf self d) (environ pf)
             (zipfold self ++ ["build"]).

Definition build_call (pf : platform) (self : GeosLibrary) (njobs : Z) : invocation :=
  Invocation (["cmake"; "--build"; "."] ++ build_opts pf self njobs)
             (build_env pf self njobs) (zipfold self ++ ["build"]).

(** The platform [pf] with another build tool. *)
Definition with_run (pf : platform)
    (r : list string -> gmap string string -> path -> gmap path node ->
         option (gmap path node * Z)) : platform :=
  {| os_name := os_name pf; sep := sep pf; calcsize_P := calcsize_P pf;
     environ := environ pf; umask := umask pf; home := home pf;
     tempdir := tempdir pf; temp_names := temp_names pf;
     has_SSLContext := has_SSLContext pf; urlopen := urlopen pf;
     strptime := strptime pf; zip_members := zip_members pf; run := r |}.

(** ** Sample platforms and worlds *)

(** A source archive with the legacy link directive, and one whose build
    descriptor has no link directive and ends its line with carriage
    return and line feed. *)
Definition sample_archive : list member :=
  [ Member ["geos-3.5.0"] true [];
    Member ["geos-3.5.0"; "tools"; "astyle.sh"] false (encode "#!/bin/sh");
    Member ["geos-3.5.0"; "capi"; "CMakeLists.txt"] false
      (encode "add_library(geos_c)" ++ [LF] ++
       encode "target_link_libraries(geos_c geos)" ++ [LF]) ].

Definition crlf_cmakelists : bytes := encode "project(geos)" ++ [CR; LF].

Definition crlf_archive : list member :=
  [ Member ["geos-3.5.0"] true [];
    Member ["geos-3.5.0"; "capi"; "CMakeLists.txt"] false crlf_cmakelists ].

Definition sample_zip : bytes := encode "PK-3.5.0".

(** A 64-bit POSIX host: what the network answers and what the archive
    holds are left open; the build tool changes nothing and succeeds. *)
Definition posix_host (answer : result response) (archive : list member) : platform := {|
  os_name := "posix";
  sep := "/";
  calcsize_P := 8;
  environ := {[ "PATH" := "/usr/bin" ]};
  umask := 18%N;
  home := Some ["home"; "user"];
  tempdir := ["tmp"];
  temp_names := ["k3x9q2ab"; "w7c1m5zd"];
  has_SSLContext := true;
  urlopen := fun _ _ => answer;
  strptime := fun _ _ => None;
  zip_members := fun d => if decide (d = sample_zip) then Some archive else None;
  run := fun _ _ _ f => Some (f, 0)
|}.

Definition posix : platform :=
  posix_host (Ok (Response None sample_zip)) sample_archive.

Definition posix_crlf : platform :=
  posix_host (Ok (Response None sample_zip)) crlf_archive.

(** The POSIX host without a network. *)
Definition offline : platform :=
  posix_host (Raise (Exn URLError "Network is unreachable")) sample_archive.

(** A 64-bit Windows host. *)
Definition windows : platform := {|
  os_name := "nt";
  sep := "\";
  calcsize_P := 8;
  environ := {[ "PATH" := "C:\Windows" ]};
  umask := 0%N;
  home := Some ["Users"; "user"];
  tempdir := ["tmp"];
  temp_names := ["k3x9q2ab"; "w7c1m5zd"];
  has_SSLContext := true;
  urlopen := fun _ _ => Ok (Response None sample_zip);
  strptime := fun _ _ => None;
  zip_members := fun d => if decide (d = sample_zip) then Some sample_archive else None;
  run := fun _ _ _ f => Some (f, 0)
|}.

(** A tool that changes nothing and reports failure. *)
Definition failing_tool (args : list string) (env : gmap string string) (d : path)
    (f : gmap path node) : option (gmap path node * Z) :=
  Some (f, 2).

Definition sample_self : GeosLibrary :=
  {| version_tuple := [3; 5; 0]; temp := false; root := ["work"; "geos"] |}.

Definition sample_fs : gmap path node :=
  list_to_map
    [ ([], Dir 493%N); (["tmp"], Dir 511%N); (["home"], Dir 493%N);
      (["work"], Dir 493%N) ].

Definition sample_world : world :=
  {| fs := sample_fs; cwd := ["work"]; calls := [] |}.

(** The sample world once the root directory has been made. *)
Definition rooted_world : world :=
  {| fs := <[ ["work"; "geos"] := Dir 493%N ]> sample_fs; cwd := ["work"]; calls := [] |}.

(** A root that holds an extracted tree from an earlier run, without the
    archive and with it. *)
Definition extracted_fs : gmap path node :=
  <[ ["work"; "geos"; "geos-3.5.0"; "README"] := File 420%N None (encode "GEOS") ]>
    (<[ ["work"; "geos"; "geos-3.5.0"] := Dir 493%N ]> (fs rooted_world)).


Definition extracted_world_with_archive : world :=
  {| fs := <[ ["work"; "geos"; "geos-3.5.0.zip"] := File 420%N None sample_zip ]> extracted_fs;
     cwd := ["work"]; calls := [] |}.

(** A world where the root cannot be made: "/etc/passwd" is a file and
    "/srv" is read-only. *)
Definition locked_fs : gmap path node :=
  list_to_map
    [ ([], Dir 493%N); (["tmp"], Dir 511%N); (["etc"], Dir 493%N);
      (["etc"; "passwd"], File 420%N None (encode "root:x:0:0"));
      (["srv"], Dir 365%N) ].

Definition locked_world : world :=
  {| fs := locked_fs; cwd := []; calls := [] |}.


(** ** Notions used in the further properties *)

(** The file system is a tree: every entry but the top one lies in a
    directory. *)
Definition is_tree (f : gmap path node) : Prop :=
  forall q n, f !! q = Some n -> q <> [] -> exists m, f !! dirname q = Some (Dir m).

Definition is_tree_b (f : gmap path node) : bool :=
  forallb (fun qn => match fst qn with
                     | [] => true
                     | _ => match f !! dirname (fst qn) with
                            | Some (Dir _) => true
                            | _ => false
                            end
                     end) (map_to_list f).

(** The link [download] opens. *)
Definition link (self : GeosLibrary) : string :=
  GEOS_BASEURL +:+ "/" +:+ version self +:+ ".zip".

(** The answer [download] works with: the request is made with a TLS
    context when the interpreter has one, and once more without it when
    that call raises [TypeError]. *)
Definition request (pf : platform) (url : string) : result response :=
  match urlopen pf url (has_SSLContext pf) with
  | Ok conn => Ok conn
  | Raise e => if is_TypeError (exn_class e) then urlopen pf url false else Raise e
  end.

(** A host whose server sends a Last-Modified header that [strptime]
    does not accept. *)
Definition posix_bad_date : platform :=
  posix_host (Ok (Response (Some "yesterday") sample_zip)) sample_archive.

(** A host whose server sends a Last-Modified header that [strptime]
    reads as the time stamp 1609459200. *)
Definition posix_dated : platform := {|
  os_name := "posix";
  sep := "/";
  calcsize_P := 8;
  environ := {[ "PATH" := "/usr/bin" ]};
  umask := 18%N;
  home := Some ["home"; "user"];
  tempdir := ["tmp"];
  temp_names := ["k3x9q2ab"; "w7c1m5zd"];
  has_SSLContext := true;
  urlopen := fun _ _ => Ok (Response (Some "Fri, 01 Jan 2021 00:00:00 GMT") sample_zip);
  strptime := fun _ _ => Some 1609459200;
  zip_members := fun d => if decide (d = sample_zip) then Some sample_archive else None;
  run := fun _ _ _ f => Some (f, 0)
|}.


(** What [build] has launched when it ends: nothing, the configure step,
    or the configure step and the build step. *)
Definition launches (pf : platform) (self : GeosLibrary) (d : path) (njobs : Z)
    (l : list invocation) : Prop :=
  l = [] \/ l = [configure_call pf self d] \/
  l = [configure_call pf self d; build_call pf self njobs].

(** An instance for a release that is not below 3.6.0. *)
Definition modern_self : GeosLibrary :=
  {| version_tuple := [3; 8; 1]; temp := false; root := ["work"; "geos"] |}.

(** The POSIX host whose build tool is not installed. *)
Definition posix_without_cmake : platform := with_run posix (fun _ _ _ _ => None).

(** [m] keeps a well-formed file system well formed. *)
Definition keeps_tree {A} (m : M A) : Prop :=
  forall w r w', m w = (r, w') -> is_tree (fs w) -> is_tree (fs w').

(** [m] changes no entry that exists, and adds none outside [S]. *)
Definition adds_only {A} (S : path -> Prop) (m : M A) : Prop :=
  forall w r w' q, m w = (r, w') -> is_Some (fs w !! q) \/ ~ S q ->
    fs w' !! q = fs w !! q.

(** The node [n] with the permission bits [mode]. *)
Definition set_mode (mode : N) (n : node) : node :=
  match n with
  | Dir _ => Dir mode
  | File _ t d => File mode t d
  end.



(** [m] changes the file system only by adding directories of mode
    [mode] at names in [S]. *)
Definition makes_dirs {A} (mode : N) (S : path -> Prop) (m : M A) : Prop :=
  forall w r w' (q : path), m w = (r, w') ->
    fs w' !! q = fs w !! q \/
    (fs w !! q = None /\ fs w' !! q = Some (Dir mode) /\ S q).

(** Whether a node is a directory. *)
Definition is_dir (n : node) : bool :=
  match n with
  | Dir _ => true
  | File _ _ _ => false
  end.

(** The POSIX host for a user without a home directory. *)
Definition posix_without_home : platform := {|
  os_name := "posix";
  sep := "/";
  calcsize_P := 8;
  environ := {[ "PATH" := "/usr/bin" ]};
  umask := 18%N;
  home := None;
  tempdir := ["tmp"];
  temp_names := ["k3x9q2ab"; "w7c1m5zd"];
  has_SSLContext := true;
  urlopen := fun _ _ => Ok (Response None sample_zip);
  strptime := fun _ _ => None;
  zip_members := fun d => if decide (d = sample_zip) then Some sample_archive else None;
  run := fun _ _ _ f => Some (f, 0)
|}.


(** * Properties *)

(** ** The built-ins on sample inputs *)

Example int_plain : int "36" = Some 36.
Proof. reflexivity. Qed.

Example int_signed_spaced : int " -1_0 " = Some (-10).
Proof. reflexivity. Qed.

Example int_empty : int EmptyString = None.
Proof. reflexivity. Qed.

Example int_double_underscore : int "1__0" = None.
Proof. reflexivity. Qed.

Example split_version : split "." "3.6.0" = ["3"; "6"; "0"].
Proof. reflexivity. Qed.

Example split_trailing_dot : split "." "3." = ["3"; EmptyString].
Proof. reflexivity. Qed.

Example join_version : join "." (map str [3; 10; 0]) = "3.10.0".
Proof. reflexivity. Qed.

(** A shorter tuple that agrees with the start of a longer one is smaller:
    version "3.6" counts as older than 3.6.0. *)
Example tuple_lt_prefix : tuple_lt [3; 6] [3; 6; 0] = true.
Proof. reflexivity. Qed.

Example tuple_lt_same : tuple_lt [3; 6; 0] [3; 6; 0] = false.
Proof. reflexivity. Qed.

Example tuple_lt_minor : tuple_lt [3; 10; 0] [3; 6; 0] = false.
Proof. reflexivity. Qed.

Example replace_leftmost :
  replace (encode "aa") (encode "b") (encode "aaa") = encode "ba".
Proof. reflexivity. Qed.

Example readlines_mixed :
  readlines (encode "a" ++ [CR; LF] ++ encode "b" ++ [CR] ++ encode "c" ++ [LF] ++ encode "d")
  = Some [encode "a" ++ [LF]; encode "b" ++ [LF]; encode "c" ++ [LF]; encode "d"].
Proof. reflexivity. Qed.

Example readlines_bad_utf8 : readlines ["255"%char] = None.
Proof. reflexivity. Qed.

Example splitext_zip :
  splitext_ext "https://github.com/libgeos/geos/archive/refs/tags/3.5.0.zip" = ".zip".
Proof. reflexivity. Qed.

(** ** Running a computation *)

Lemma run_Ok {A} (m : M A) w a : fst (m w) = Ok a -> m w = (Ok a, snd (m w)).
Proof. destruct (m w) as [r w']. simpl. by intros ->. Qed.


(** ** Text *)

Lemma has_char_lstrip c s : has_char c (lstrip s) = true -> has_char c s = true.
Proof.
  induction s as [|a s IH]; simpl; [done|].
  destruct (isspace a); simpl; intros H.
  - rewrite IH by done. apply orb_true_r.
  - done.
Qed.

Lemma has_char_rstrip c s : has_char c (rstrip s) = true -> has_char c s = true.
Proof.
  induction s as [|a s IH]; simpl; [done|].
  destruct (rstrip s) as [|b t] eqn:E.
  - destruct (isspace a); simpl; [done|].
    rewrite orb_false_r. intros ->. done.
  - simpl in *. intros H. apply orb_true_iff in H as [H|H].
    + rewrite H. done.
    + rewrite IH by done. apply orb_true_r.
Qed.

Lemma has_char_strip c s : has_char c (strip s) = true -> has_char c s = true.
Proof. intros H. by apply has_char_lstrip, has_char_rstrip. Qed.

Lemma split_nonempty sep s : split sep s <> [].
Proof.
  destruct s as [|a s]; simpl; [done|].
  destruct (Ascii.eqb a sep); [done|]. by destruct (split sep s).
Qed.

Lemma has_char_split c sep s f :
  In f (split sep s) -> has_char c f = true -> has_char c s = true.
Proof.
  revert f. induction s as [|a s IH]; simpl; intros f.
  - intros [<-|[]]. done.
  - destruct (Ascii.eqb a sep).
    + intros [<-|Hin]; [done|]. intros H. rewrite (IH f) by done. apply orb_true_r.
    + destruct (split sep s) as [|g gs] eqn:E.
      * by destruct (split_nonempty sep s).
      * intros [<-|Hin]; simpl; intros H.
        -- apply orb_true_iff in H as [H|H]; [by rewrite H|].
           rewrite (IH g) by (by left || done). apply orb_true_r.
        -- rewrite (IH f) by (by right || done). apply orb_true_r.
Qed.

Lemma of_uint_nonneg d : 0 <= Z.of_uint d.
Proof. unfold Z.of_uint. lia. Qed.

Lemma int_nonneg s z : has_char "-" s = false -> int s = Some z -> 0 <= z.
Proof.
  intros Hs. unfold int.
  destruct (strip s) as [|c r] eqn:E.
  - destruct (digits_of false EmptyString); [|done].
    destruct (NilEmpty.uint_of_string s0); [|done].
    intros [= <-]. apply of_uint_nonneg.
  - destruct (Ascii.eqb c "-") eqn:Ec.
    + assert (has_char "-" s = true); [|congruence].
      apply has_char_strip. rewrite E. simpl. by rewrite Ec.
    + destruct (Ascii.eqb c "+");
        (match goal with |- context [digits_of false ?b] => destruct (digits_of false b) as [ds|]; [|done] end);
        (destruct (NilEmpty.uint_of_string ds); [|done]);
        intros [= <-]; apply of_uint_nonneg.
Qed.

Lemma map_int_nonneg l vt :
  (forall f, In f l -> has_char "-" f = false) ->
  map_int l = Some vt -> Forall (fun z => 0 <= z) vt.
Proof.
  revert vt. induction l as [|f l IH]; simpl; intros vt Hl.
  - intros [= <-]. constructor.
  - destruct (int f) as [z|] eqn:Ef; [|done].
    destruct (map_int l) as [zs|]; [|done]. simpl. intros [= <-].
    constructor.
    + eapply int_nonneg; [|done]. apply Hl. by left.
    + apply IH; [|done]. intros g Hg. apply Hl. by right.
Qed.

(** ** The constructor *)

Lemma init_version_tuple pf v r w self w' :
  __init__ pf v r w = (Ok self, w') ->
  map_int (split "." v) = Some (version_tuple self).
Proof.
  unfold __init__. destruct (map_int (split "." v)) as [vt|]; [|done].
  destruct r as [r|]; unfold bind.
  - destruct (try_except _ _ _ w) as [[[]|e] w1]; [|done].
    unfold ret. by intros [= <- _].
  - destruct (mkdtemp _ _ w) as [[p|e] w1]; [|done].
    unfold ret. by intros [= <- _].
Qed.

(** C4, as stated, fails: the constructor takes "3.-1.0" and stores a
    negative component. *)
Lemma version_tuple_negative_component :
  exists self w,
    __init__ posix "3.-1.0" (Some ["work"; "geos"]) sample_world = (Ok self, w) /\
    version_tuple self = [3; -1; 0] /\
    ~ Forall (fun z => 0 <= z) (version_tuple self).
Proof.
  exists {| version_tuple := [3; -1; 0]; temp := false; root := ["work"; "geos"] |},
    (snd (__init__ posix "3.-1.0" (Some ["work"; "geos"]) sample_world)).
  split; [apply run_Ok; vm_compute; reflexivity|]. split; [reflexivity|].
  simpl. intros H. inversion H as [|? ? _ H']. inversion H'. lia.
Qed.

(** C4 (amended): for every dotted version string without a minus sign
    that the constructor accepts, every component of the version tuple is
    non-negative. *)
Theorem version_tuple_nonneg pf v r w self w' :
  has_char "-" v = false ->
  __init__ pf v r w = (Ok self, w') ->
  Forall (fun z => 0 <= z) (version_tuple self).
Proof.
  intros Hv Hinit. apply init_version_tuple in Hinit.
  eapply map_int_nonneg; [|done].
  intros f Hf. destruct (has_char "-" f) eqn:E; [|done].
  rewrite (has_char_split _ _ _ _ Hf E) in Hv. done.
Qed.

Lemma version_tuple_nonneg_witness :
  Forall (fun z => 0 <= z)
    (version_tuple {| version_tuple := [3; 5; 0]; temp := false; root := ["work"; "geos"] |}).
Proof.
  apply (version_tuple_nonneg posix "3.5.0" (Some ["work"; "geos"]) sample_world _
           (snd (__init__ posix "3.5.0" (Some ["work"; "geos"]) sample_world))).
  - reflexivity.
  - apply run_Ok. vm_compute. reflexivity.
Defined.

(** ** Numerals: [int] and [str] *)

Lemma isdigit_not_space c : isdigit c = true -> isspace c = false.
Proof.
  unfold isdigit, isspace. intros H.
  apply andb_true_iff in H as [H1 H2].
  apply N.leb_le in H1. apply N.leb_le in H2.
  apply orb_false_iff. split.
  - apply andb_false_iff. right. apply N.leb_gt. lia.
  - apply N.eqb_neq. lia.
Qed.

Lemma isdigit_cases c :
  isdigit c = true ->
  (c = "0" \/ c = "1" \/ c = "2" \/ c = "3" \/ c = "4" \/
   c = "5" \/ c = "6" \/ c = "7" \/ c = "8" \/ c = "9")%char.
Proof.
  destruct c as [[|] [|] [|] [|] [|] [|] [|] [|]]; vm_compute; intros H;
    try discriminate H; tauto.
Qed.

Lemma lstrip_head c s : isspace c = false -> lstrip (String c s) = String c s.
Proof. simpl. by intros ->. Qed.

Lemma rstrip_digits s : all_digits s = true -> rstrip s = s.
Proof.
  induction s as [|a s IH]; simpl; [done|].
  intros H. apply andb_true_iff in H as [Ha Hs].
  rewrite IH by done. destruct s; [|done].
  by rewrite isdigit_not_space.
Qed.

Lemma strip_digits s : all_digits s = true -> strip s = s.
Proof.
  intros H. unfold strip. destruct s as [|a s]; [done|].
  simpl in H. apply andb_true_iff in H as [Ha Hs].
  rewrite lstrip_head by (by apply isdigit_not_space).
  apply rstrip_digits. simpl. by rewrite Ha, Hs.
Qed.

Lemma isdigit_not_underscore c : isdigit c = true -> Ascii.eqb c "_" = false.
Proof. intros H. by destruct (isdigit_cases c H) as [->|[->|[->|[->|[->|[->|[->|[->|[->| ->]]]]]]]]]. Qed.

Lemma digits_of_digits b s :
  all_digits s = true -> (b = true \/ s <> EmptyString) -> digits_of b s = Some s.
Proof.
  revert b. induction s as [|a s IH]; simpl; intros b H Hb.
  - destruct Hb as [->|Hb]; done.
  - apply andb_true_iff in H as [Ha Hs].
    rewrite isdigit_not_underscore, Ha by done.
    rewrite IH by (done || by left). done.
Qed.


Lemma all_digits_of_uint d : all_digits (NilEmpty.string_of_uint d) = true.
Proof. induction d; simpl; try done. Qed.


Lemma head_not_sign a :
  isdigit a = true ->
  Ascii.eqb a "-" = false /\ Ascii.eqb a "+" = false.
Proof. intros H. by destruct (isdigit_cases a H) as [->|[->|[->|[->|[->|[->|[->|[->|[->| ->]]]]]]]]]. Qed.





(** Printing an integer and reading it gives it back. *)
Lemma int_digits d :
  d <> Decimal.Nil ->
  int (NilEmpty.string_of_uint d) = Some (Z.of_uint d) /\
  int (String "-" (NilEmpty.string_of_uint d)) = Some (- Z.of_uint d).
Proof.
  intros Hd. pose proof (all_digits_of_uint d) as Hall.
  destruct (NilEmpty.string_of_uint d) as [|a s] eqn:E; [by destruct d|].
  pose proof Hall as Hall'. simpl in Hall'. apply andb_true_iff in Hall' as [Ha _].
  destruct (head_not_sign a Ha) as [H1 H2].
  assert (NilEmpty.uint_of_string (String a s) = Some d) as Hu
    by (rewrite <- E; apply NilEmpty.usu).
  split.
  - unfold int. rewrite strip_digits by done. rewrite H1, H2.
    rewrite digits_of_digits by (done || by right). by rewrite Hu.
  - unfold int, strip. rewrite lstrip_head by done.
    assert (rstrip (String "-" (String a s)) = String "-" (String a s)) as ->.
    { change (rstrip (String "-" (String a s)))
        with (match rstrip (String a s) with
              | EmptyString => if isspace "-" then EmptyString else String "-" EmptyString
              | t => String "-" t end).
      by rewrite rstrip_digits. }
    change (Ascii.eqb "-" "-") with true. cbv iota.
    rewrite digits_of_digits by (done || by right). by rewrite Hu.
Qed.

Lemma int_str z : int (str z) = Some z.
Proof.
  unfold str. destruct z as [|p|p]; [done| |]; simpl.
  - pose proof (DecimalPos.Unsigned.to_uint_nonnil p) as Hn.
    assert (NilZero.string_of_uint (Pos.to_uint p) = NilEmpty.string_of_uint (Pos.to_uint p)) as ->
      by (by destruct (Pos.to_uint p)).
    destruct (int_digits _ Hn) as [-> _]. unfold Z.of_uint.
    by rewrite DecimalPos.Unsigned.of_to.
  - pose proof (DecimalPos.Unsigned.to_uint_nonnil p) as Hn.
    assert (NilZero.string_of_uint (Pos.to_uint p) = NilEmpty.string_of_uint (Pos.to_uint p)) as ->
      by (by destruct (Pos.to_uint p)).
    destruct (int_digits _ Hn) as [_ ->]. unfold Z.of_uint.
    by rewrite DecimalPos.Unsigned.of_to.
Qed.

(** ** The monad *)

Lemma bind_Ok {A B} (m : M A) (k : A -> M B) w b w' :
  bind m k w = (Ok b, w') ->
  exists a w1, m w = (Ok a, w1) /\ k a w1 = (Ok b, w').
Proof.
  unfold bind. destruct (m w) as [[a|e] w1]; [|done]. by exists a, w1.
Qed.

Lemma bind_Raise {A B} (m : M A) (k : A -> M B) w e w' :
  bind m k w = (Raise e, w') ->
  m w = (Raise e, w') \/ exists a w1, m w = (Ok a, w1) /\ k a w1 = (Raise e, w').
Proof.
  unfold bind. destruct (m w) as [[a|e1] w1].
  - right. by exists a, w1.
  - intros [= -> ->]. by left.
Qed.

Lemma bind_eq {A B} (m : M A) (k : A -> M B) w a w1 :
  m w = (Ok a, w1) -> bind m k w = k a w1.
Proof. unfold bind. by intros ->. Qed.

Lemma bind_eq_Raise {A B} (m : M A) (k : A -> M B) w e w1 :
  m w = (Raise e, w1) -> bind m k w = (Raise e, w1).
Proof. unfold bind. by intros ->. Qed.

Lemma raises_only_bind {A B} P (m : M A) (k : A -> M B) :
  raises_only P m -> (forall a, raises_only P (k a)) -> raises_only P (bind m k).
Proof.
  intros Hm Hk w e w' H. apply bind_Raise in H as [H|(a & w1 & _ & H)].
  - by eapply Hm.
  - by eapply Hk.
Qed.

Lemma raises_only_ret {A} P (a : A) : raises_only P (ret a).
Proof. intros w e w'. done. Qed.

Lemma raises_only_try_except {A} P (m h : M A) c :
  raises_only P m -> raises_only P h -> raises_only P (try_except m c h).
Proof.
  intros Hm Hh w e w'. unfold try_except.
  destruct (m w) as [[a|e1] w1] eqn:E; [done|].
  destruct (c (exn_class e1)).
  - apply Hh.
  - intros [= <- <-]. by eapply Hm.
Qed.

(** What is caught does not get out. *)
Lemma try_except_pass (m : M unit) c w :
  raises_only c m -> exists w', try_except m c pass w = (Ok tt, w').
Proof.
  intros Hm. unfold try_except.
  destruct (m w) as [[[]|e] w1] eqn:E; [by eexists|].
  rewrite (Hm _ _ _ E). by eexists.
Qed.

(** ** Directory creation *)

Lemma create_raises p n : raises_only is_OSError (create p n).
Proof.
  intros w e w'. unfold create, raise.
  destruct (fs w !! p); [by intros [= <- _]|].
  destruct (fs w !! dirname p) as [[m|? ? ?]|]; try by intros [= <- _].
  destruct (writable m); [done|]. by intros [= <- _].
Qed.

Lemma makedirs_rev_raises pf rp : raises_only is_OSError (makedirs_rev pf rp).
Proof.
  induction rp as [|tail rhead IH]; simpl.
  - apply create_raises.
  - apply raises_only_bind; [done|]. intros he.
    apply raises_only_bind; [|intros _; apply create_raises].
    destruct he; [apply raises_only_ret|].
    apply raises_only_try_except; [done|apply raises_only_ret].
Qed.

Lemma makedirs_raises pf p : raises_only is_OSError (makedirs pf p).
Proof. apply makedirs_rev_raises. Qed.

Lemma init_with_root pf v vt r w :
  map_int (split "." v) = Some vt ->
  __init__ pf v (Some r) w =
    (Ok {| version_tuple := vt; temp := false; root := r |},
     snd (try_except (makedirs pf r) is_OSError pass w)).
Proof.
  intros Hv. unfold __init__. rewrite Hv.
  destruct (try_except_pass (makedirs pf r) is_OSError w (makedirs_raises pf r)) as [w' E].
  rewrite (bind_eq _ _ _ _ _ E). by rewrite E.
Qed.



(** The same under a read-only directory: [PermissionError] is dropped as
    well. *)
Lemma init_ignores_permission_error :
  makedirs posix ["srv"; "geos"] locked_world =
    (Raise (Exn PermissionError EACCES), locked_world) /\
  fst (__init__ posix "3.5.0" (Some ["srv"; "geos"]) locked_world) =
    Ok {| version_tuple := [3; 5; 0]; temp := false; root := ["srv"; "geos"] |} /\
  fs (snd (__init__ posix "3.5.0" (Some ["srv"; "geos"]) locked_world))
    !! ["srv"; "geos"] = None.
Proof. repeat split; vm_compute; reflexivity. Qed.

(** ** The version string *)




(** ** Calls that leave the working directory and the process log alone *)

Lemma keeps_process_ret {A} (a : A) : keeps_process (ret a).
Proof. intros w r w'. unfold ret. by intros [= _ <-]. Qed.

Lemma keeps_process_raise {A} c msg : keeps_process (@raise A c msg).
Proof. intros w r w'. unfold raise. by intros [= _ <-]. Qed.

Lemma keeps_process_lift {A} (x : result A) : keeps_process (lift x).
Proof. intros w r w'. unfold lift. by intros [= _ <-]. Qed.

Lemma keeps_process_bind {A B} (m : M A) (k : A -> M B) :
  keeps_process m -> (forall a, keeps_process (k a)) -> keeps_process (bind m k).
Proof.
  intros Hm Hk w r w'. unfold bind. destruct (m w) as [[a|e] w1] eqn:E.
  - intros H. destruct (Hm _ _ _ E) as [Hc Hl].
    destruct (Hk _ _ _ _ H) as [Hc' Hl']. split; congruence.
  - intros [= _ <-]. by eapply Hm.
Qed.

Lemma keeps_process_try_except {A} (m h : M A) c :
  keeps_process m -> keeps_process h -> keeps_process (try_except m c h).
Proof.
  intros Hm Hh w r w'. unfold try_except. destruct (m w) as [[a|e] w1] eqn:E.
  - intros [= _ <-]. by eapply Hm.
  - destruct (Hm _ _ _ E) as [Hc Hl]. destruct (c (exn_class e)).
    + intros H. destruct (Hh _ _ _ H) as [Hc' Hl']. split; congruence.
    + by intros [= _ <-].
Qed.

Lemma keeps_process_try_finally {A} (m : M A) f :
  keeps_process m -> keeps_process f -> keeps_process (try_finally m f).
Proof.
  intros Hm Hf w r w'. unfold try_finally. destruct (m w) as [r1 w1] eqn:E.
  destruct (Hm _ _ _ E) as [Hc Hl]. destruct (f w1) as [[[]|e] w2] eqn:F;
    intros [= _ <-]; destruct (Hf _ _ _ F) as [Hc' Hl']; split; congruence.
Qed.

Lemma keeps_process_for_each {A} (l : list A) body :
  (forall x, keeps_process (body x)) -> keeps_process (for_each l body).
Proof.
  intros Hb. induction l as [|x l IH]; simpl.
  - apply keeps_process_ret.
  - apply keeps_process_bind; [apply Hb|done].
Qed.

(** A call that only replaces the file system. *)
Ltac keeps_fs :=
  intros w r w';
  repeat match goal with
         | |- context [match ?x with _ => _ end] => destruct x
         end;
  unfold raise; intros [= _ <-]; done.

Lemma keeps_process_path_exists p : keeps_process (path_exists p).
Proof. unfold path_exists. keeps_fs. Qed.

Lemma keeps_process_path_isdir p : keeps_process (path_isdir p).
Proof. by intros w r w' [= _ <-]. Qed.

Lemma keeps_process_create p n : keeps_process (create p n).
Proof. unfold create. keeps_fs. Qed.

Lemma keeps_process_chmod p m : keeps_process (chmod p m).
Proof. unfold chmod. keeps_fs. Qed.

Lemma keeps_process_utime p t : keeps_process (utime p t).
Proof. unfold utime. keeps_fs. Qed.

Lemma keeps_process_unlink p : keeps_process (unlink p).
Proof. unfold unlink. keeps_fs. Qed.

Lemma keeps_process_rmtree p : keeps_process (rmtree p).
Proof. unfold rmtree. keeps_fs. Qed.

Lemma keeps_process_getcwd : keeps_process getcwd.
Proof. unfold getcwd. keeps_fs. Qed.

Lemma keeps_process_read_bytes p : keeps_process (read_bytes p).
Proof. unfold read_bytes. keeps_fs. Qed.

Lemma keeps_process_glob_sh d : keeps_process (glob_sh d).
Proof. by intros w r w' [= _ <-]. Qed.

Lemma keeps_process_write_bytes pf p d : keeps_process (write_bytes pf p d).
Proof.
  intros w r w'. unfold write_bytes.
  destruct (fs w !! p) as [[m|m t d0]|] eqn:E.
  - unfold raise. by intros [= _ <-].
  - destruct (writable m); unfold raise; by intros [= _ <-].
  - apply keeps_process_create.
Qed.

Lemma keeps_process_makedirs_rev pf rp : keeps_process (makedirs_rev pf rp).
Proof.
  induction rp as [|tail rhead IH]; simpl.
  - apply keeps_process_create.
  - apply keeps_process_bind; [apply keeps_process_path_exists|]. intros he.
    apply keeps_process_bind; [|intros _; apply keeps_process_create].
    destruct he; [apply keeps_process_ret|].
    apply keeps_process_try_except; [done|apply keeps_process_ret].
Qed.

Lemma keeps_process_makedirs pf p : keeps_process (makedirs pf p).
Proof. apply keeps_process_makedirs_rev. Qed.

Lemma keeps_process_mktemp pf n b a names : keeps_process (mktemp pf n b a names).
Proof.
  induction names as [|name names IH]; simpl.
  - apply keeps_process_raise.
  - apply keeps_process_try_except; [|done].
    apply keeps_process_bind; [apply keeps_process_create|].
    intros _. apply keeps_process_ret.
Qed.

Lemma keeps_process_extract_member pf dest m : keeps_process (extract_member pf dest m).
Proof.
  unfold extract_member.
  apply keeps_process_bind; [apply keeps_process_path_exists|]. intros ue.
  apply keeps_process_bind.
  - destruct ue; [apply keeps_process_ret|apply keeps_process_makedirs].
  - intros _. destruct (m_dir m).
    + apply keeps_process_bind; [apply keeps_process_path_isdir|].
      intros []; [apply keeps_process_ret|apply keeps_process_create].
    + apply keeps_process_write_bytes.
Qed.

Lemma keeps_process_extractall pf dest ms : keeps_process (extractall pf dest ms).
Proof.
  induction ms as [|m ms IH]; simpl.
  - apply keeps_process_ret.
  - apply keeps_process_bind; [apply keeps_process_extract_member|done].
Qed.

Lemma keeps_process_download pf self : keeps_process (download pf self).
Proof.
  unfold download.
  apply keeps_process_bind.
  { apply keeps_process_try_except; apply keeps_process_lift. }
  intros conn. apply keeps_process_bind.
  { destruct (last_modified conn) as [d|]; [|apply keeps_process_ret].
    destruct (strptime pf d _); [apply keeps_process_ret|apply keeps_process_raise]. }
  intros date. apply keeps_process_bind; [apply keeps_process_mktemp|].
  intros tmpzip. apply keeps_process_bind.
  { apply keeps_process_try_finally; [|apply keeps_process_unlink].
    apply keeps_process_bind; [apply keeps_process_write_bytes|]. intros _.
    apply keeps_process_bind; [apply keeps_process_read_bytes|]. intros data.
    apply keeps_process_write_bytes. }
  intros _. destruct date; [apply keeps_process_utime|apply keeps_process_ret].
Qed.

Lemma keeps_process_extract pf self overwrite : keeps_process (extract pf self overwrite).
Proof.
  unfold extract.
  apply keeps_process_bind.
  { unfold extract_fetch. apply keeps_process_bind; [apply keeps_process_path_exists|].
    intros []; [apply keeps_process_ret|apply keeps_process_download]. }
  intros _. apply keeps_process_bind.
  { unfold extract_clear. apply keeps_process_bind; [apply keeps_process_path_exists|].
    intros []; [|apply keeps_process_ret].
    destruct (negb overwrite); [apply keeps_process_raise|apply keeps_process_rmtree]. }
  intros _. apply keeps_process_bind.
  { unfold extract_unzip, ZipFile. apply keeps_process_bind.
    - apply keeps_process_bind; [apply keeps_process_read_bytes|]. intros data.
      destruct (zip_members pf data); [apply keeps_process_ret|apply keeps_process_raise].
    - intros fd. apply keeps_process_extractall. }
  intros _. apply keeps_process_bind.
  { unfold extract_chmod. apply keeps_process_bind; [apply keeps_process_glob_sh|].
    intros scripts. apply keeps_process_for_each. intros p. apply keeps_process_chmod. }
  intros _. apply keeps_process_bind.
  { unfold extract_patch. apply keeps_process_bind; [apply keeps_process_read_bytes|].
    intros data. destruct (readlines data);
      [apply keeps_process_write_bytes|apply keeps_process_raise]. }
  intros _. unfold extract_svn.
  destruct (tuple_lt _ _); [|apply keeps_process_ret].
  apply keeps_process_bind; [apply keeps_process_path_exists|].
  intros []; [apply keeps_process_ret|apply keeps_process_write_bytes].
Qed.

Lemma keeps_process_default_installdir pf : keeps_process (default_installdir pf).
Proof.
  unfold default_installdir. destruct (home pf); [apply keeps_process_ret|].
  apply keeps_process_bind; [apply keeps_process_getcwd|].
  intros here. apply keeps_process_ret.
Qed.

(** ** The invocations of [build] *)

Lemma subprocess_call_Ok pf args env w status w' :
  subprocess_call pf args env w = (Ok status, w') ->
  cwd w' = cwd w /\ calls w' = calls w ++ [Invocation args env (cwd w)].
Proof.
  unfold subprocess_call. destruct (run pf args env (cwd w) (fs w)) as [[f s]|]; [|done].
  intros [= _ <-]. split; reflexivity.
Qed.

Lemma chdir_Ok p w w' : chdir p w = (Ok tt, w') -> w' = set_cwd p w.
Proof.
  unfold chdir. destruct (fs w !! p) as [[m|? ? ?]|]; try done.
  destruct (searchable m); [|done]. by intros [= <-].
Qed.

Lemma try_finally_Ok {A} (m : M A) f w a w' :
  try_finally m f w = (Ok a, w') ->
  exists w1, m w = (Ok a, w1) /\ f w1 = (Ok tt, w').
Proof.
  unfold try_finally. destruct (m w) as [r w1].
  destruct (f w1) as [[[]|e] w2] eqn:F; [|done].
  intros [= -> <-]. by exists w1.
Qed.

(** When [build] returns, exactly two programs have been launched, both
    from the build directory: the configure step and the build step. *)
Lemma build_Ok_calls pf self installdir njobs w w' :
  build pf self installdir njobs w = (Ok tt, w') ->
  exists d, (forall d', installdir = Some d' -> d = d') /\
    calls w' = calls w ++ [configure_call pf self d; build_call pf self njobs].
Proof.
  unfold build. intros H.
  apply bind_Ok in H as ([] & wa & Ha & H).
  destruct (keeps_process_extract _ _ _ _ _ _ Ha) as [Hca Hla].
  apply bind_Ok in H as (d & wb & Hb & H).
  assert (cwd wb = cwd wa /\ calls wb = calls wa) as [Hcb Hlb].
  { destruct installdir; [by injection Hb as _ <-|].
    by apply keeps_process_default_installdir in Hb. }
  apply bind_Ok in H as (c & wc & Hc & H).
  destruct (keeps_process_getcwd _ _ _ Hc) as [Hcc Hlc].
  apply try_finally_Ok in H as (wd & H & Hfin).
  apply chdir_Ok in Hfin. subst w'.
  apply bind_Ok in H as ([] & w1 & H1 & H).
  apply keeps_process_try_except in H1 as [_ Hl1];
    [|apply keeps_process_makedirs|apply keeps_process_ret].
  apply bind_Ok in H as ([] & w2 & H2 & H).
  apply chdir_Ok in H2. subst w2.
  apply bind_Ok in H as (s1 & w3 & H3 & H).
  apply subprocess_call_Ok in H3 as [Hc3 Hl3]. simpl in Hc3, Hl3.
  apply bind_Ok in H as ([] & w4 & H4 & H).
  apply keeps_process_try_except in H4 as [Hc4 Hl4];
    [|apply keeps_process_makedirs|apply keeps_process_ret].
  apply bind_Ok in H as (s2 & w5 & H5 & H).
  apply subprocess_call_Ok in H5 as [Hc5 Hl5].
  injection H as <-.
  exists d. split.
  - intros d' ->. by injection Hb as ->.
  - simpl. rewrite Hl5, Hl4, Hl3, Hl1, Hlc, Hlb, Hla, Hc4, Hc3.
    rewrite <- app_assoc. done.
Qed.

Lemma on_nt_true pf : os_name pf = "nt" -> on_nt pf = true.
Proof. unfold on_nt. by intros ->. Qed.

Lemma on_nt_false pf : os_name pf <> "nt" -> on_nt pf = false.
Proof. unfold on_nt. intros H. by apply String.eqb_neq. Qed.

(** C6: on Windows, below 3.6.0, the configure arguments start with the
    generator pair and go on with the install prefix, the tests switch and
    the build type; the build arguments end with the [WIN64=] and
    [BUILD_BATCH=] assignments behind "--" and hold no job-count flag; and
    these are the arguments of the two programs [build] launches, for a
    given install directory as for the default one. *)
Theorem build_arguments_windows_legacy pf self installdir njobs :
  os_name pf = "nt" ->
  tuple_lt (version_tuple self) [3; 6; 0] = true ->
  config_opts pf self installdir =
    [ "-G"; "NMake Makefiles";
      "-DCMAKE_INSTALL_PREFIX=" +:+ path_str pf installdir;
      "-DGEOS_ENABLE_TESTS=OFF"; "-DCMAKE_BUILD_TYPE=Release" ] /\
  build_opts pf self njobs =
    [ "--config"; "Release"; "--target"; "install"; "--";
      "WIN64=" +:+ (if 8 * calcsize_P pf =? 64 then "YES" else "NO");
      "BUILD_BATCH=" +:+ (if njobs >? 1 then "YES" else "NO") ] /\
  Forall (fun a => job_count_flag a = false) (build_opts pf self njobs) /\
  build_env pf self njobs = environ pf /\
  (forall w w',
     build pf self (Some installdir) njobs w = (Ok tt, w') ->
     calls w' = calls w ++ [configure_call pf self installdir; build_call pf self njobs]) /\
  (forall w w',
     build pf self None njobs w = (Ok tt, w') ->
     exists d, calls w' = calls w ++ [configure_call pf self d; build_call pf self njobs]).
Proof.
  intros Hnt Hlt.
  assert (build_opts pf self njobs =
    [ "--config"; "Release"; "--target"; "install"; "--";
      "WIN64=" +:+ (if 8 * calcsize_P pf =? 64 then "YES" else "NO");
      "BUILD_BATCH=" +:+ (if njobs >? 1 then "YES" else "NO") ]) as Hopts.
  { unfold build_opts, build_opts_env. by rewrite (on_nt_true _ Hnt), Hlt. }
  split; [|split; [done|split; [|split; [|split]]]].
  - unfold config_opts. by rewrite (on_nt_true _ Hnt), Hlt.
  - rewrite Hopts. destruct (8 * calcsize_P pf =? 64), (njobs >? 1);
      repeat constructor.
  - unfold build_env, build_opts_env. by rewrite (on_nt_true _ Hnt), Hlt.
  - intros w w' H. apply build_Ok_calls in H as (d & Hd & ->).
    by rewrite (Hd installdir eq_refl).
  - intros w w' H. apply build_Ok_calls in H as (d & _ & ->). by exists d.
Qed.

Lemma build_arguments_windows_legacy_witness :
  config_opts windows sample_self ["opt"; "geos"] =
    [ "-G"; "NMake Makefiles"; "-DCMAKE_INSTALL_PREFIX=\opt\geos";
      "-DGEOS_ENABLE_TESTS=OFF"; "-DCMAKE_BUILD_TYPE=Release" ] /\
  build_opts windows sample_self 4 =
    [ "--config"; "Release"; "--target"; "install"; "--"; "WIN64=YES"; "BUILD_BATCH=YES" ] /\
  map inv_argv
    (calls (snd (build windows sample_self (Some ["opt"; "geos"]) 4 rooted_world))) =
    [ [ "cmake"; ".."; "-G"; "NMake Makefiles"; "-DCMAKE_INSTALL_PREFIX=\opt\geos";
        "-DGEOS_ENABLE_TESTS=OFF"; "-DCMAKE_BUILD_TYPE=Release" ];
      [ "cmake"; "--build"; "."; "--config"; "Release"; "--target"; "install"; "--";
        "WIN64=YES"; "BUILD_BATCH=YES" ] ].
Proof.
  destruct (build_arguments_windows_legacy windows sample_self ["opt"; "geos"] 4
              eq_refl eq_refl) as (Hc & Ho & _ & _ & Hb & _).
  split; [exact Hc|]. split; [exact Ho|].
  rewrite (Hb rooted_world (snd (build windows sample_self (Some ["opt"; "geos"]) 4 rooted_world)));
    [reflexivity|apply run_Ok; vm_compute; reflexivity].
Defined.

(** C7: off Windows the job count travels in the environment of the build
    step only: [MAKEFLAGS] is "-j " followed by the decimal numeral of
    [njobs] (which reads back as [njobs]), the rest of the environment is
    inherited, and neither the configure arguments nor the build arguments
    hold a job-count flag; these are the arguments and the environment of
    the programs [build] launches, for a given install directory as for
    the default one. *)
Theorem build_parallelism_in_environment pf self installdir njobs :
  os_name pf <> "nt" ->
  build_env pf self njobs !! "MAKEFLAGS" = Some ("-j " +:+ str njobs) /\
  int (str njobs) = Some njobs /\
  (forall k, k <> "MAKEFLAGS" -> build_env pf self njobs !! k = environ pf !! k) /\
  Forall (fun a => job_count_flag a = false) (config_opts pf self installdir) /\
  Forall (fun a => job_count_flag a = false) (build_opts pf self njobs) /\
  (forall w w',
     build pf self (Some installdir) njobs w = (Ok tt, w') ->
     calls w' = calls w ++ [configure_call pf self installdir; build_call pf self njobs]) /\
  (forall w w',
     build pf self None njobs w = (Ok tt, w') ->
     exists d, calls w' = calls w ++ [configure_call pf self d; build_call pf self njobs]).
Proof.
  intros Hnt. pose proof (on_nt_false _ Hnt) as Hf.
  assert (build_env pf self njobs = <["MAKEFLAGS" := "-j " +:+ str njobs]> (environ pf)) as ->.
  { unfold build_env, build_opts_env. by rewrite Hf. }
  split; [apply lookup_insert_eq|]. split; [apply int_str|].
  split; [intros k Hk; by apply lookup_insert_ne|]. split; [|split; [|split]].
  - unfold config_opts. rewrite Hf. simpl. repeat constructor.
  - unfold build_opts, build_opts_env. rewrite Hf. simpl. repeat constructor.
  - intros w w' H. apply build_Ok_calls in H as (d & Hd & ->).
    by rewrite (Hd installdir eq_refl).
  - intros w w' H. apply build_Ok_calls in H as (d & _ & ->). by exists d.
Qed.

Lemma build_parallelism_in_environment_witness :
  map (fun c => (inv_argv c, inv_env c !! "MAKEFLAGS"))
    (calls (snd (build posix sample_self (Some ["opt"; "geos"]) 4 rooted_world))) =
    [ ([ "cmake"; ".."; "-DCMAKE_INSTALL_PREFIX=/opt/geos";
         "-DGEOS_ENABLE_TESTS=OFF"; "-DCMAKE_BUILD_TYPE=Release" ], None);
      ([ "cmake"; "--build"; "."; "--config"; "Release"; "--target"; "install" ],
       Some "-j 4") ].
Proof.
  assert (os_name posix <> "nt") as Hnt by discriminate.
  destruct (build_parallelism_in_environment posix sample_self ["opt"; "geos"] 4 Hnt)
    as (_ & _ & _ & _ & _ & Hb & _).
  rewrite (Hb rooted_world (snd (build posix sample_self (Some ["opt"; "geos"]) 4 rooted_world)));
    [vm_compute; reflexivity|apply run_Ok; vm_compute; reflexivity].
Defined.

(** ** Exit statuses *)

Lemma bind_ignore {A B} (m1 m2 : M A) (k : M B) w :
  (match m1 w, m2 w with
   | (Ok _, w1), (Ok _, w2) => w1 = w2
   | (Raise e1, w1), (Raise e2, w2) => e1 = e2 /\ w1 = w2
   | _, _ => False
   end) ->
  bind m1 (fun _ => k) w = bind m2 (fun _ => k) w.
Proof.
  unfold bind. destruct (m1 w) as [[a1|e1] w1], (m2 w) as [[a2|e2] w2]; try done.
  - by intros ->.
  - by intros [-> ->].
Qed.

Lemma subprocess_call_with_run pf r' args env w :
  (forall a e c f, option_map fst (r' a e c f) = option_map fst (run pf a e c f)) ->
  match subprocess_call (with_run pf r') args env w, subprocess_call pf args env w with
  | (Ok _, w1), (Ok _, w2) => w1 = w2
  | (Raise e1, w1), (Raise e2, w2) => e1 = e2 /\ w1 = w2
  | _, _ => False
  end.
Proof.
  intros Hr. unfold subprocess_call. simpl. specialize (Hr args env (cwd w) (fs w)).
  destruct (r' args env (cwd w) (fs w)) as [[f' s']|],
           (run pf args env (cwd w) (fs w)) as [[f s]|]; simpl in *; try done.
  by injection Hr as ->.
Qed.

Lemma bind_ext {A B} (m : M A) (k1 k2 : A -> M B) w :
  (forall a w1, k1 a w1 = k2 a w1) -> bind m k1 w = bind m k2 w.
Proof. intros H. unfold bind. by destruct (m w) as [[a|e] w1]. Qed.

Lemma try_finally_ext {A} (m1 m2 : M A) f w :
  m1 w = m2 w -> try_finally m1 f w = try_finally m2 f w.
Proof. unfold try_finally. by intros ->. Qed.

(** C9: [build] does not look at the exit statuses.  With a tool that acts
    on the files in the same way but reports other statuses, [build] ends
    in the same way, in the same world. *)
Theorem build_ignores_exit_status pf r' self installdir njobs w :
  (forall a e c f, option_map fst (r' a e c f) = option_map fst (run pf a e c f)) ->
  build (with_run pf r') self installdir njobs w = build pf self installdir njobs w.
Proof.
  intros Hr. unfold build.
  change (extract (with_run pf r') self true) with (extract pf self true).
  apply bind_ext. intros _ wa.
  change (default_installdir (with_run pf r')) with (default_installdir pf).
  apply bind_ext. intros d wb. apply bind_ext. intros c wc.
  apply try_finally_ext.
  change (makedirs (with_run pf r')) with (makedirs pf).
  apply bind_ext. intros _ w1. apply bind_ext. intros _ w2.
  change (config_opts (with_run pf r')) with (config_opts pf).
  change (build_opts (with_run pf r')) with (build_opts pf).
  change (build_env (with_run pf r')) with (build_env pf).
  change (environ (with_run pf r')) with (environ pf).
  etransitivity; [apply bind_ignore, subprocess_call_with_run, Hr|].
  apply bind_ext. intros _ w3. apply bind_ext. intros _ w4.
  apply bind_ignore, subprocess_call_with_run, Hr.
Qed.

(** Both invocations report failure and [build] returns normally. *)
Lemma build_ignores_exit_status_witness :
  fst (build (with_run posix failing_tool) sample_self (Some ["opt"; "geos"]) 1 rooted_world)
    = Ok tt.
Proof.
  rewrite (build_ignores_exit_status posix failing_tool sample_self
             (Some ["opt"; "geos"]) 1 rooted_world).
  - vm_compute. reflexivity.
  - intros a e c f. reflexivity.
Defined.

(** ** The working directory *)

Lemma bind_inv {A B} (m : M A) (k : A -> M B) w r w' :
  bind m k w = (r, w') ->
  (exists e, m w = (Raise e, w') /\ r = Raise e) \/
  (exists a w1, m w = (Ok a, w1) /\ k a w1 = (r, w')).
Proof.
  unfold bind. destruct (m w) as [[a|e] w1].
  - right. by exists a, w1.
  - intros [= <- <-]. left. by exists e.
Qed.

Lemma chdir_inv p w r w' :
  chdir p w = (r, w') ->
  (r = Ok tt /\ w' = set_cwd p w /\ can_enter (fs w) p = true) \/
  (exists e, r = Raise e /\ w' = w /\ can_enter (fs w) p = false /\
             is_OSError (exn_class e) = true).
Proof.
  unfold chdir, can_enter, raise.
  destruct (fs w !! p) as [[m|? ? ?]|]; [destruct (searchable m)|..];
    intros [= <- <-]; (by left) || (right; by eexists).
Qed.

Lemma getcwd_inv w r w' :
  getcwd w = (r, w') -> w' = w /\ (forall c, r = Ok c -> c = cwd w).
Proof.
  unfold getcwd, raise. destruct (fs w !! cwd w) as [[m|? ? ?]|];
    intros [= <- <-]; split; try done; by intros c [= <-].
Qed.

Lemma try_finally_inv {A} (m : M A) f w r w' :
  try_finally m f w = (r, w') ->
  exists r1 w1, m w = (r1, w1) /\
    ((f w1 = (Ok tt, w') /\ r = r1) \/ (exists e, f w1 = (Raise e, w') /\ r = Raise e)).
Proof.
  unfold try_finally. destruct (m w) as [r1 w1]. intros H.
  exists r1, w1. split; [done|].
  destruct (f w1) as [[[]|e] w2]; injection H as <- <-; [by left|right; by exists e].
Qed.






(** ** Which entries a call can change *)

Lemma only_touches_mono {A} (S S' : path -> Prop) (m : M A) :
  (forall q, S q -> S' q) -> only_touches S m -> only_touches S' m.
Proof. intros HS Hm w r w' q H Hq. eapply Hm; [done|]. intros ?. by apply Hq, HS. Qed.

Lemma only_touches_ret {A} S (a : A) : only_touches S (ret a).
Proof. by intros w r w' q [= _ <-]. Qed.


Lemma only_touches_lift {A} S (x : result A) : only_touches S (lift x).
Proof. by intros w r w' q [= _ <-]. Qed.

Lemma only_touches_bind {A B} S (m : M A) (k : A -> M B) :
  only_touches S m -> (forall a, only_touches S (k a)) -> only_touches S (bind m k).
Proof.
  intros Hm Hk w r w' q H Hq.
  apply bind_inv in H as [(e & H & _)|(a & w1 & H1 & H)].
  - by eapply Hm.
  - rewrite (Hk _ _ _ _ _ H Hq). by eapply Hm.
Qed.



Lemma only_touches_for_each {A} S (l : list A) body :
  (forall x, In x l -> only_touches S (body x)) -> only_touches S (for_each l body).
Proof.
  induction l as [|x l IH]; simpl; intros Hb.
  - apply only_touches_ret.
  - apply only_touches_bind; [apply Hb; by left|].
    intros _. apply IH. intros y Hy. apply Hb. by right.
Qed.

(** A call that replaces the entry [p] at most. *)
Ltac touches_one :=
  intros w r w' q;
  repeat match goal with
         | |- context [match ?x with _ => _ end] => destruct x
         end;
  unfold raise; intros [= _ <-] Hq; simpl;
  try done; try (by rewrite lookup_insert_ne by congruence);
  try (by rewrite lookup_delete_ne by congruence).



Lemma only_touches_glob_sh S d : only_touches S (glob_sh d).
Proof. by intros w r w' q [= _ <-]. Qed.

Lemma only_touches_create p n : only_touches (eq p) (create p n).
Proof. unfold create. touches_one. Qed.

Lemma only_touches_chmod p m : only_touches (eq p) (chmod p m).
Proof. unfold chmod. touches_one. Qed.



Lemma only_touches_write_bytes pf p d : only_touches (eq p) (write_bytes pf p d).
Proof.
  intros w r w' q. unfold write_bytes.
  destruct (fs w !! p) as [[m|m t d0]|] eqn:E.
  - unfold raise. by intros [= _ <-].
  - destruct (writable m); unfold raise; intros [= _ <-] Hq; [|done].
    simpl. by rewrite lookup_insert_ne.
  - apply only_touches_create.
Qed.


(** ** Temporary names *)

Lemma create_inv p n w r w' :
  create p n w = (r, w') ->
  (r = Ok tt /\ fs w !! p = None /\ w' = set_fs (<[p := n]> (fs w)) w) \/
  (exists e, r = Raise e /\ w' = w).
Proof.
  unfold create, raise. destruct (fs w !! p); [intros [= <- <-]; right; by eexists|].
  destruct (fs w !! dirname p) as [[m|? ? ?]|];
    try (intros [= <- <-]; right; by eexists).
  destruct (writable m); intros [= <- <-]; [by left|right; by eexists].
Qed.

(** A temporary entry is made under a name that was free. *)
Lemma mktemp_inv pf n b a names w r w' :
  mktemp pf n b a names w = (r, w') ->
  (exists p, r = Ok p /\ fs w !! p = None /\ w' = set_fs (<[p := n]> (fs w)) w) \/
  (exists e, r = Raise e /\ w' = w).
Proof.
  revert r w'. induction names as [|name names IH]; simpl; intros r w'.
  - unfold raise. intros [= <- <-]. right. by eexists.
  - unfold try_except, bind.
    destruct (create _ n w) as [rc wc] eqn:C.
    apply create_inv in C as [(-> & Hfree & ->)|(e & -> & ->)].
    + unfold ret. intros [= <- <-]. left. by eexists.
    + destruct (is_FileExistsError (exn_class e)); [apply IH|].
      intros [= <- <-]. right. by eexists.
Qed.

(** ** The archive name *)

Lemma append_nil s : EmptyString +:+ s = s.
Proof. reflexivity. Qed.

Lemma append_cons x a s : String x a +:+ s = String x (a +:+ s).
Proof. reflexivity. Qed.

Lemma has_char_app c a b : has_char c (a +:+ b) = has_char c a || has_char c b.
Proof.
  induction a as [|x a IH]; [done|].
  rewrite append_cons. cbn [has_char]. by rewrite IH, orb_assoc.
Qed.

Lemma has_char_uint c d :
  has_char c (NilEmpty.string_of_uint d) = true -> isdigit c = true.
Proof.
  induction d; cbn [NilEmpty.string_of_uint has_char]; [done|..];
    (intros H; apply orb_true_iff in H as [H|H]; [|by apply IHd]);
    apply Ascii.eqb_eq in H; by subst c.
Qed.

Lemma has_char_str c z : has_char c (str z) = true -> isdigit c = true \/ c = "-"%char.
Proof.
  unfold str. destruct z as [|p|p]; cbn [Z.to_int NilZero.string_of_int].
  - change (NilZero.string_of_uint Decimal.zero) with "0".
    cbn [has_char]. rewrite orb_false_r. intros H. apply Ascii.eqb_eq in H. subst c. by left.
  - assert (NilZero.string_of_uint (Pos.to_uint p) = NilEmpty.string_of_uint (Pos.to_uint p)) as ->
      by (pose proof (DecimalPos.Unsigned.to_uint_nonnil p); by destruct (Pos.to_uint p)).
    intros H. left. by eapply has_char_uint.
  - assert (NilZero.string_of_uint (Pos.to_uint p) = NilEmpty.string_of_uint (Pos.to_uint p)) as ->
      by (pose proof (DecimalPos.Unsigned.to_uint_nonnil p); by destruct (Pos.to_uint p)).
    cbn [has_char]. intros H. apply orb_true_iff in H as [H|H].
    + apply Ascii.eqb_eq in H. by right.
    + left. by eapply has_char_uint.
Qed.

Lemma has_char_join c sepc l :
  has_char c (join (String sepc EmptyString) l) = true ->
  c = sepc \/ exists f, In f l /\ has_char c f = true.
Proof.
  unfold join. induction l as [|f l IH]; [done|].
  destruct l as [|g l].
  - cbn [String.concat]. intros H. right. exists f. split; [by left|done].
  - cbn [String.concat] in *. rewrite has_char_app, append_cons, append_nil.
    cbn [has_char]. intros H.
    apply orb_true_iff in H as [H|H]; [right; exists f; split; [by left|done]|].
    apply orb_true_iff in H as [H|H]; [apply Ascii.eqb_eq in H; by left|].
    destruct (IH H) as [->|(h & Hh & Hc)]; [by left|].
    right. exists h. split; [by right|done].
Qed.

(** A version string holds digits, dots and minus signs only. *)
Lemma version_no_slash self : has_char "/" (version self) = false.
Proof.
  destruct (has_char "/" (version self)) eqn:E; [|done].
  apply has_char_join in E as [E|(f & Hf & E)]; [done|].
  apply in_map_iff in Hf as (z & <- & _).
  by apply has_char_str in E as [E|E].
Qed.

Lemma split_no_sep c s : has_char c s = false -> split c s = [s].
Proof.
  induction s as [|a s IH]; cbn [has_char split]; [done|].
  intros H. apply orb_false_iff in H as [-> Hs]. by rewrite IH.
Qed.

Lemma split_app c a b :
  exists l, l <> [] /\ split c (a +:+ String c b) = l ++ split c b.
Proof.
  induction a as [|x a (l & Hl & IH)].
  - rewrite append_nil. cbn [split]. rewrite Ascii.eqb_refl. by exists [EmptyString].
  - rewrite append_cons. cbn [split]. rewrite IH. destruct (Ascii.eqb x c).
    + by exists (EmptyString :: l).
    + destruct l as [|f l]; [done|]. by exists (String x f :: l).
Qed.

Lemma last_app_nonempty {A} (l k : list A) d : k <> [] -> List.last (l ++ k) d = List.last k d.
Proof.
  intros Hk. induction l as [|x l IH]; simpl; [done|].
  rewrite IH. destruct (l ++ k) eqn:E; [|done].
  apply app_eq_nil in E as [_ ->]. done.
Qed.

Lemma last_field_app c a b : last_field c (a +:+ String c b) = last_field c b.
Proof.
  unfold last_field. destruct (split_app c a b) as (l & _ & ->).
  apply last_app_nonempty, split_nonempty.
Qed.

(** [download] writes the archive where [extract] looks for it. *)
Lemma download_zipname self :
  "geos-" +:+ last_field "/" (GEOS_BASEURL +:+ "/" +:+ version self +:+ ".zip")
  = "geos-" +:+ version self +:+ ".zip".
Proof.
  f_equal. change ("/" +:+ version self +:+ ".zip")
    with (String "/" (version self +:+ ".zip")).
  rewrite last_field_app. unfold last_field. rewrite split_no_sep; [done|].
  rewrite has_char_app, version_no_slash. done.
Qed.

Lemma string_app_length a b : String.length (a +:+ b) = (String.length a + String.length b)%nat.
Proof.
  induction a as [|x a IH]; [done|].
  rewrite append_cons. simpl. by rewrite IH.
Qed.


(** ** What [download] changes *)

Lemma lift_inv {A} (x : result A) w r w' : lift x w = (r, w') -> w' = w.
Proof. by intros [= _ <-]. Qed.


(** ** Declining to overwrite *)

Lemma path_exists_eq (p : path) w :
  path_exists p w = (Ok (bool_decide (is_Some (fs w !! p))), w).
Proof. reflexivity. Qed.




(** ** Replacing text *)

Lemma replace_from_skip old new k s :
  replace_from old new k s = replace old new (drop k s).
Proof.
  revert k. induction s as [|c s IH]; intros k.
  - by destruct k.
  - destruct k as [|k]; [done|]. simpl. apply IH.
Qed.

(** The equation of [replace] for a non-empty pattern. *)
Lemma replace_unfold old new s :
  old <> [] ->
  replace old new s =
    if startswith old s then new ++ replace old new (drop (length old) s)
    else match s with
         | [] => []
         | c :: s' => c :: replace old new s'
         end.
Proof.
  intros Hold. destruct s as [|c s].
  - destruct old; done.
  - unfold replace at 1. simpl replace_from.
    destruct (startswith old (c :: s)); [|done].
    rewrite replace_from_skip. destruct old as [|o old]; [done|].
    simpl. by rewrite Nat.sub_0_r.
Qed.

Lemma contains_cons p c s : contains p (c :: s) = startswith p (c :: s) || contains p s.
Proof. reflexivity. Qed.

Lemma startswith_app p s u : startswith p s = true -> startswith p (s ++ u) = true.
Proof.
  revert s. induction p as [|a p IH]; intros s; [done|].
  destruct s as [|b s]; [done|]. simpl.
  intros H. apply andb_true_iff in H as [-> H]. by apply IH.
Qed.

Lemma contains_app_l p s u : contains p s = true -> contains p (s ++ u) = true.
Proof.
  induction s as [|c s IH].
  - simpl. rewrite orb_false_r. destruct p; [|done]. by destruct u.
  - rewrite contains_cons. intros H. apply orb_true_iff in H as [H|H].
    + change ((c :: s) ++ u) with (c :: (s ++ u)). rewrite contains_cons.
      change (c :: (s ++ u)) with ((c :: s) ++ u). by rewrite startswith_app.
    + change ((c :: s) ++ u) with (c :: (s ++ u)). rewrite contains_cons.
      rewrite IH by done. apply orb_true_r.
Qed.

Lemma startswith_contains p s : startswith p s = true -> contains p s = true.
Proof. destruct s; simpl; intros ->; done. Qed.

(** Where the pattern does not occur, nothing is replaced. *)
Lemma replace_absent old new s :
  old <> [] -> contains old s = false -> replace old new s = s.
Proof.
  intros Hold. induction s as [|c s IH]; intros H.
  - rewrite replace_unfold by done. by destruct old.
  - rewrite contains_cons in H. apply orb_false_iff in H as [H1 H2].
    rewrite replace_unfold, H1 by done. by rewrite IH.
Qed.

(** Where the pattern occurs, the replacement text occurs afterwards. *)
Lemma replace_present old new s :
  old <> [] -> contains old s = true -> contains new (replace old new s) = true.
Proof.
  intros Hold. induction s as [|c s IH]; intros H.
  - destruct old; done.
  - rewrite replace_unfold by done. rewrite contains_cons in H.
    destruct (startswith old (c :: s)) eqn:E.
    + apply contains_app_l, startswith_contains.
      clear. induction new as [|a n IHn]; [done|]. simpl.
      by rewrite Ascii.eqb_refl.
    + simpl in H. rewrite contains_cons, (IH H). apply orb_true_r.
Qed.

(** *** The patch of [extract] *)

Lemma oldtext_nonempty : oldtext <> [].
Proof. done. Qed.

Lemma drop_cons_inv {A} k (l : list A) x l' : drop k l = x :: l' -> drop (S k) l = l'.
Proof.
  revert l. induction k as [|k IH]; intros l; destruct l as [|y l]; simpl; try done.
  - by intros [= _ ->].
  - apply IH.
Qed.

(** No proper suffix of the old text starts the new text: what follows a
    replacement cannot complete an occurrence that began before it. *)
Lemma oldtext_suffix_newtext k u :
  (k < 33)%nat -> startswith (drop (S k) oldtext) (newtext ++ u) = false.
Proof.
  intros Hk.
  do 33 (destruct k as [|k]; [reflexivity|]). lia.
Qed.

(** The new text holds no occurrence of the old text, nor the beginning
    of one at its end. *)
Lemma contains_oldtext_newtext u : contains oldtext (newtext ++ u) = contains oldtext u.
Proof. reflexivity. Qed.

Lemma startswith_suffix_patch s k :
  startswith (drop (S k) oldtext) (patch_line s) = true ->
  startswith (drop (S k) oldtext) s = true.
Proof.
  revert k. induction s as [|c s IH]; intros k; unfold patch_line in *;
    rewrite replace_unfold by apply oldtext_nonempty.
  - change (startswith oldtext []) with false. done.
  - destruct (startswith oldtext (c :: s)) eqn:E.
    + destruct (decide (k < 33)%nat) as [Hk|Hk].
      * by rewrite oldtext_suffix_newtext.
      * intros _. replace (drop (S k) oldtext) with (@nil ascii); [done|].
        symmetry. apply drop_ge. simpl. lia.
    + destruct (drop (S k) oldtext) as [|s0 rest] eqn:D; [done|].
      apply drop_cons_inv in D. subst rest. cbn [startswith].
      intros H. apply andb_true_iff in H as [-> H]. by apply IH.
Qed.

Lemma startswith_oldtext c s :
  startswith oldtext (c :: s) = Ascii.eqb "t" c && startswith (drop 1 oldtext) s.
Proof. reflexivity. Qed.

(** The patched text holds no occurrence of the old text. *)
Lemma patch_line_no_oldtext s : contains oldtext (patch_line s) = false.
Proof.
  remember (length s) as n eqn:Hn. revert s Hn.
  induction n as [n IH] using lt_wf_ind. intros s ->.
  unfold patch_line. rewrite replace_unfold by apply oldtext_nonempty.
  destruct (startswith oldtext s) eqn:E.
  - rewrite contains_oldtext_newtext.
    apply (IH (length (drop (length oldtext) s))); [|done].
    rewrite length_drop. destruct s; [done|]. simpl. lia.
  - destruct s as [|c s]; [done|].
    rewrite contains_cons.
    rewrite (IH (length s)) by (simpl; lia || done). rewrite orb_false_r.
    destruct (startswith oldtext (c :: replace oldtext newtext s)) eqn:F; [|done].
    rewrite startswith_oldtext in E, F. apply andb_true_iff in F as [Fc F].
    apply (startswith_suffix_patch s 0) in F. by rewrite Fc, F in E.
Qed.

(** ** Lines *)

Lemma startswith_cons_eq p a c s :
  startswith (a :: p) (c :: s) = Ascii.eqb a c && startswith p s.
Proof. reflexivity. Qed.

(** A pattern without line feed cannot reach across the end of a line. *)
Lemma startswith_before_LF p a b :
  LF ∉ p -> startswith p (a ++ LF :: b) = startswith p a.
Proof.
  revert a. induction p as [|x p IH]; intros a Hp; [by destruct a|].
  apply not_elem_of_cons in Hp as [Hx Hp].
  destruct a as [|c a].
  - simpl. destruct (Ascii.eqb_spec x LF) as [->|]; done.
  - change ((c :: a) ++ LF :: b) with (c :: (a ++ LF :: b)).
    rewrite !startswith_cons_eq. by rewrite IH.
Qed.

Lemma replace_LF old new a b :
  old <> [] -> LF ∉ old ->
  replace old new (a ++ LF :: b) = replace old new a ++ LF :: replace old new b.
Proof.
  intros Hne Hold. remember (length a) as n eqn:Hn. revert a Hn.
  induction n as [n IH] using lt_wf_ind. intros a ->.
  rewrite (replace_unfold old new (a ++ LF :: b)), (replace_unfold old new a) by done.
  rewrite startswith_before_LF by done.
  destruct (startswith old a) eqn:E.
  - assert (length old <= length a)%nat as Hlen.
    { clear -E. revert a E. induction old as [|x old IH]; intros a E; [simpl; lia|].
      destruct a as [|c a]; [done|]. rewrite startswith_cons_eq in E.
      apply andb_true_iff in E as [_ E]. apply IH in E. simpl. lia. }
    rewrite drop_app_le by done. rewrite <- app_assoc. f_equal.
    apply (IH (length (drop (length old) a))); [|done].
    rewrite length_drop. destruct old; [done|]. simpl in *. lia.
  - destruct a as [|c a]; simpl; [done|].
    f_equal. apply (IH (length a)); [simpl; lia|done].
Qed.

Lemma splitlines_LF a b : LF ∉ a -> splitlines (a ++ LF :: b) = (a ++ [LF]) :: splitlines b.
Proof.
  induction a as [|c a IH]; intros Ha; [done|].
  apply not_elem_of_cons in Ha as [Hc Ha].
  change ((c :: a) ++ LF :: b) with (c :: (a ++ LF :: b)). cbn [splitlines].
  destruct (Ascii.eqb_spec c LF) as [->|_]; [done|]. by rewrite IH.
Qed.

Lemma splitlines_no_LF a : LF ∉ a -> a <> [] -> splitlines a = [a].
Proof.
  induction a as [|c a IH]; intros Ha Hne; [done|].
  apply not_elem_of_cons in Ha as [Hc Ha]. cbn [splitlines].
  destruct (Ascii.eqb_spec c LF) as [->|_]; [done|].
  destruct a as [|d a]; [done|]. by rewrite IH.
Qed.

Lemma oldtext_no_LF : LF ∉ oldtext.
Proof. intros H. by repeat (apply elem_of_cons in H as [H|H]; [done|]); apply elem_of_nil in H. Qed.

Lemma newtext_no_LF : LF ∉ newtext.
Proof. intros H. by repeat (apply elem_of_cons in H as [H|H]; [done|]); apply elem_of_nil in H. Qed.

Lemma patch_line_LF a b : patch_line (a ++ LF :: b) = patch_line a ++ LF :: patch_line b.
Proof. apply replace_LF; [apply oldtext_nonempty|apply oldtext_no_LF]. Qed.

Lemma patch_line_nil : patch_line [] = [].
Proof. reflexivity. Qed.

(** Patching line by line is patching the whole text. *)
Lemma concat_patch_lines t : concat (map patch_line (splitlines t)) = patch_line t.
Proof.
  remember (length t) as n eqn:Hn. revert t Hn.
  induction n as [n IH] using lt_wf_ind. intros t ->.
  destruct (decide (LF ∈ t)) as [Hin|Hout].
  - apply list_elem_of_split_l in Hin as (a & b & -> & Ha).
    rewrite splitlines_LF by done. cbn [map concat].
    rewrite (IH (length b)) by (rewrite ?length_app; simpl; lia || done).
    rewrite patch_line_LF.
    change (a ++ [LF]) with (a ++ LF :: []). rewrite patch_line_LF, patch_line_nil.
    by rewrite <- app_assoc.
  - destruct t as [|c t]; [done|].
    rewrite splitlines_no_LF by done. simpl. by rewrite app_nil_r.
Qed.

Lemma patch_line_no_LF s : LF ∉ s -> LF ∉ patch_line s.
Proof.
  remember (length s) as n eqn:Hn. revert s Hn.
  induction n as [n IH] using lt_wf_ind. intros s -> Hs.
  unfold patch_line. rewrite replace_unfold by apply oldtext_nonempty.
  destruct (startswith oldtext s) eqn:E.
  - intros H. apply elem_of_app in H as [H|H]; [by apply newtext_no_LF|].
    revert H. apply (IH (length (drop (length oldtext) s))); [|done|].
    + rewrite length_drop. destruct s; [done|]. simpl. lia.
    + intros H. apply Hs. rewrite <- (take_drop (length oldtext) s).
      apply elem_of_app. by right.
  - destruct s as [|c s]; [done|].
    apply not_elem_of_cons in Hs as [Hc Hs].
    apply not_elem_of_cons. split; [done|].
    apply (IH (length s)); [simpl; lia|done|done].
Qed.

Lemma patch_line_nonempty s : s <> [] -> patch_line s <> [].
Proof.
  intros Hs. unfold patch_line. rewrite replace_unfold by apply oldtext_nonempty.
  destruct (startswith oldtext s); [done|]. by destruct s.
Qed.

(** The lines of the patched text are the patched lines. *)
Lemma splitlines_patch t : splitlines (patch_line t) = map patch_line (splitlines t).
Proof.
  remember (length t) as n eqn:Hn. revert t Hn.
  induction n as [n IH] using lt_wf_ind. intros t ->.
  destruct (decide (LF ∈ t)) as [Hin|Hout].
  - apply list_elem_of_split_l in Hin as (a & b & -> & Ha).
    rewrite patch_line_LF, !splitlines_LF by (done || by apply patch_line_no_LF).
    cbn [map]. rewrite (IH (length b)) by (rewrite ?length_app; simpl; lia || done).
    f_equal. change (a ++ [LF]) with (a ++ LF :: []).
    by rewrite patch_line_LF, patch_line_nil.
  - destruct t as [|c t]; [done|].
    rewrite (splitlines_no_LF (c :: t)) by done.
    rewrite splitlines_no_LF;
      [done|by apply patch_line_no_LF|by apply patch_line_nonempty].
Qed.

(** Reading with universal newlines keeps every occurrence of a pattern
    that holds no carriage return. *)
Lemma startswith_universal_newlines p s :
  CR ∉ p -> startswith p s = true -> startswith p (universal_newlines s) = true.
Proof.
  revert s. induction p as [|x p IH]; intros s Hp; [done|].
  apply not_elem_of_cons in Hp as [Hx Hp].
  destruct s as [|c s]; [done|]. rewrite startswith_cons_eq.
  intros H. apply andb_true_iff in H as [Hc H].
  apply Ascii.eqb_eq in Hc. subst c. cbn [universal_newlines].
  destruct (Ascii.eqb_spec x CR) as [->|_]; [done|].
  rewrite startswith_cons_eq, Ascii.eqb_refl. by apply IH.
Qed.

Lemma universal_newlines_cons c s :
  exists d, universal_newlines (c :: s) = d :: universal_newlines s \/
            exists s', s = LF :: s' /\ universal_newlines (c :: s) = LF :: universal_newlines s'
                       /\ universal_newlines s = LF :: universal_newlines s'.
Proof.
  cbn [universal_newlines]. destruct (Ascii.eqb c CR).
  - destruct s as [|d s]; [exists LF; by left|].
    destruct (Ascii.eqb_spec d LF) as [->|Hd].
    + exists LF. right. exists s. by repeat split.
    + exists LF. by left.
  - exists c. by left.
Qed.

Lemma contains_universal_newlines p s :
  CR ∉ p -> p <> [] -> contains p s = true -> contains p (universal_newlines s) = true.
Proof.
  intros Hp Hne. induction s as [|c s IH]; [by destruct p|].
  rewrite contains_cons. intros H. apply orb_true_iff in H as [H|H].
  - by apply startswith_contains, startswith_universal_newlines.
  - specialize (IH H).
    destruct (universal_newlines_cons c s) as (d & [->|(s' & -> & -> & E)]).
    + rewrite contains_cons, IH. apply orb_true_r.
    + by rewrite <- E.
Qed.

Lemma oldtext_no_CR : CR ∉ oldtext.
Proof. intros H. by repeat (apply elem_of_cons in H as [H|H]; [done|]); apply elem_of_nil in H. Qed.

(** ** The steps of [extract] *)

Lemma extract_Ok_inv pf self overwrite w w' :
  extract pf self overwrite w = (Ok tt, w') ->
  exists wx w4 w5,
    extract_tree pf self overwrite w = (Ok tt, wx) /\
    extract_chmod pf self wx = (Ok tt, w4) /\
    extract_patch pf self w4 = (Ok tt, w5) /\
    extract_svn pf self w5 = (Ok tt, w').
Proof.
  unfold extract, extract_tree. intros H.
  apply bind_Ok in H as ([] & w1 & H1 & H).
  apply bind_Ok in H as ([] & w2 & H2 & H).
  apply bind_Ok in H as ([] & wx & H3 & H).
  apply bind_Ok in H as ([] & w4 & H4 & H).
  apply bind_Ok in H as ([] & w5 & H5 & H).
  exists wx, w4, w5. repeat split; try done.
  rewrite (bind_eq _ _ _ _ _ H1). by rewrite (bind_eq _ _ _ _ _ H2).
Qed.

Lemma is_script_of_inv (d p : path) :
  is_script_of d p = true -> exists name, p = d ++ [name].
Proof.
  unfold is_script_of. destruct (last p) as [name|]; [|done].
  intros H. apply andb_true_iff in H as [H _].
  apply bool_decide_eq_true in H. by exists name.
Qed.

(** Only scripts below [tools] have their mode changed. *)
Lemma extract_chmod_touches pf self : only_touches (is_tool self) (extract_chmod pf self).
Proof.
  intros w r w' q. unfold extract_chmod. intros H Hq.
  apply bind_inv in H as [(e & H & _)|(scripts & w1 & H1 & H)]; [done|].
  injection H1 as <- <-.
  revert H Hq. apply only_touches_for_each. intros p Hp.
  eapply only_touches_mono; [|apply only_touches_chmod]. intros ? <-.
  apply list_elem_of_In in Hp.
  unfold sorted in Hp. rewrite merge_sort_Permutation in Hp.
  match type of Hp with
  | context [match ?x with _ => _ end] => destruct x as [[m|? ? ?]|]
  end; try (by apply elem_of_nil in Hp).
  apply list_elem_of_filter in Hp as [Hp _].
  apply is_script_of_inv in Hp as [name ->].
  exists name. by rewrite <- app_assoc.
Qed.

Lemma read_bytes_Ok (p : path) w d w' :
  read_bytes p w = (Ok d, w') ->
  w' = w /\ exists m t, fs w !! p = Some (File m t d).
Proof.
  unfold read_bytes, raise. destruct (fs w !! p) as [[m|m t d0]|]; try done.
  destruct (readable m); [|done]. intros [= <- <-]. split; [done|]. by eexists _, _.
Qed.

Lemma write_bytes_Ok pf (p : path) d w w' :
  write_bytes pf p d w = (Ok tt, w') ->
  exists m, w' = set_fs (<[p := File m None d]> (fs w)) w /\
    match fs w !! p with
    | Some (File m0 _ _) => m = m0
    | Some (Dir _) => False
    | None => m = file_mode pf
    end.
Proof.
  unfold write_bytes, raise. destruct (fs w !! p) as [[m|m t d0]|] eqn:E; [done|..].
  - destruct (writable m); [|done]. intros [= <-]. by exists m.
  - intros H. apply create_inv in H as [(_ & _ & ->)|(? & [=] & _)].
    by exists (file_mode pf).
Qed.

Lemma extract_patch_Ok pf self w w' :
  extract_patch pf self w = (Ok tt, w') ->
  exists m t pre lines,
    fs w !! cmakefile self = Some (File m t pre) /\
    readlines pre = Some lines /\
    w' = set_fs (<[cmakefile self := File m None (concat (map patch_line lines))]> (fs w)) w.
Proof.
  unfold extract_patch. intros H.
  apply bind_Ok in H as (pre & w1 & H1 & H).
  apply read_bytes_Ok in H1 as [-> (m & t & Hpre)].
  destruct (readlines pre) as [lines|] eqn:L; [|done].
  apply write_bytes_Ok in H as (m' & -> & Hm). rewrite Hpre in Hm. subst m'.
  by exists m, t, pre, lines.
Qed.

Lemma extract_svn_Ok pf self w w' :
  extract_svn pf self w = (Ok tt, w') ->
  if tuple_lt (version_tuple self) [3; 6; 0] then
    match fs w !! svn_hfile self with
    | None => w' = set_fs (<[svn_hfile self := File (file_mode pf) None svn_text]> (fs w)) w
    | Some _ => w' = w
    end
  else w' = w.
Proof.
  unfold extract_svn. destruct (tuple_lt _ _); [|by intros [= <-]].
  rewrite (bind_eq _ _ _ _ _ (path_exists_eq _ _)).
  destruct (fs w !! svn_hfile self) as [n|] eqn:E.
  - rewrite bool_decide_eq_true_2 by done. by intros [= <-].
  - rewrite bool_decide_eq_false_2 by (by intros [? ?]). simpl.
    intros H. apply write_bytes_Ok in H as (m & -> & Hm). rewrite E in Hm. by subst m.
Qed.

Lemma svn_hfile_not_tool self : ~ is_tool self (svn_hfile self).
Proof. intros [name H]. unfold svn_hfile in H. by apply app_inv_head in H. Qed.

Lemma cmakefile_not_tool self : ~ is_tool self (cmakefile self).
Proof. intros [name H]. unfold cmakefile in H. by apply app_inv_head in H. Qed.

Lemma svn_hfile_not_cmakefile self : cmakefile self <> svn_hfile self.
Proof. unfold cmakefile, svn_hfile. intros H. by apply app_inv_head in H. Qed.

(** ** The revision header *)

(** C2: when [extract] has returned, compare the revision header with the
    extracted tree, that is the world right after the decompression.
    Below 3.6.0 a header missing from that tree now exists with the macro
    as its whole content, and a header present in it is the same entry
    still; from 3.6.0 on the header is exactly as the decompression left
    it, so it is never made. *)
Theorem extract_svn_revision_header pf self overwrite w w' :
  extract pf self overwrite w = (Ok tt, w') ->
  exists wx,
    extract_tree pf self overwrite w = (Ok tt, wx) /\
    (tuple_lt (version_tuple self) [3; 6; 0] = true ->
       (fs wx !! svn_hfile self = None ->
          fs w' !! svn_hfile self = Some (File (file_mode pf) None svn_text)) /\
       (forall n, fs wx !! svn_hfile self = Some n -> fs w' !! svn_hfile self = Some n)) /\
    (tuple_lt (version_tuple self) [3; 6; 0] = false ->
       fs w' !! svn_hfile self = fs wx !! svn_hfile self).
Proof.
  intros H. apply extract_Ok_inv in H as (wx & w4 & w5 & Hx & H4 & H5 & H6).
  exists wx. split; [done|].
  pose proof (extract_chmod_touches pf self _ _ _ _ H4 (svn_hfile_not_tool self)) as E4.
  apply extract_patch_Ok in H5 as (m & t & pre & lines & _ & _ & ->).
  assert (fs (set_fs (<[cmakefile self := File m None (concat (map patch_line lines))]> (fs w4)) w4)
            !! svn_hfile self = fs wx !! svn_hfile self) as E5.
  { simpl. rewrite lookup_insert_ne by apply svn_hfile_not_cmakefile. done. }
  apply extract_svn_Ok in H6. split.
  - intros Hlt. rewrite Hlt in H6. split.
    + intros Hnone. rewrite E5, Hnone in H6. subst w'. simpl. by rewrite lookup_insert_eq.
    + intros n Hn. rewrite E5, Hn in H6. subst w'. by rewrite E5.
  - intros Hge. rewrite Hge in H6. subst w'. done.
Qed.

Lemma extract_svn_revision_header_witness :
  fs (snd (extract posix sample_self true rooted_world)) !! svn_hfile sample_self =
    Some (File 420%N None (encode "#define GEOS_SVN_REVISION 0")).
Proof.
  destruct (extract_svn_revision_header posix sample_self true rooted_world
              (snd (extract posix sample_self true rooted_world)))
    as (wx & Hx & Hlt & _).
  - apply run_Ok. vm_compute. reflexivity.
  - destruct (Hlt eq_refl) as [Hnone _]. apply Hnone.
    assert (wx = snd (extract_tree posix sample_self true rooted_world)) as ->
      by (by rewrite Hx).
    vm_compute. reflexivity.
Defined.

(** ** The build descriptor *)

Lemma universal_newlines_id s : CR ∉ s -> universal_newlines s = s.
Proof.
  induction s as [|c s IH]; intros Hs; [done|].
  apply not_elem_of_cons in Hs as [Hc Hs]. cbn [universal_newlines].
  destruct (Ascii.eqb_spec c CR) as [->|_]; [done|]. by rewrite IH.
Qed.

Lemma patch_line_absent line : contains oldtext line = false -> patch_line line = line.
Proof. apply replace_absent, oldtext_nonempty. Qed.

Lemma Forall2_patch_lines lines :
  Forall2 (fun before after => contains oldtext before = false -> after = before)
    lines (map patch_line lines).
Proof.
  induction lines as [|l lines IH]; simpl; constructor; [|done].
  intros H. by apply patch_line_absent.
Qed.

(** C3, as stated, fails: a descriptor without the shared-library
    directive gets no static-library directive, and its line, which ended
    in carriage return and line feed, is written back ending in a line
    feed alone. *)
Lemma extract_patch_without_directive :
  exists w' m t,
    extract posix_crlf sample_self true rooted_world = (Ok tt, w') /\
    fs (snd (extract_tree posix_crlf sample_self true rooted_world)) !! cmakefile sample_self
      = Some (File m t (encode "project(geos)" ++ [CR; LF])) /\
    fs w' !! cmakefile sample_self = Some (File m None (encode "project(geos)" ++ [LF])) /\
    contains newtext (encode "project(geos)" ++ [LF]) = false /\
    contains oldtext (encode "project(geos)" ++ [CR; LF]) = false /\
    encode "project(geos)" ++ [LF] <> encode "project(geos)" ++ [CR; LF].
Proof.
  exists (snd (extract posix_crlf sample_self true rooted_world)), 420%N, None.
  split; [apply run_Ok; vm_compute; reflexivity|].
  split; [vm_compute; reflexivity|]. split; [vm_compute; reflexivity|].
  by repeat split.
Qed.

(** C3 (amended): when [extract] has returned, the build descriptor is
    the extracted one read in text mode (which must be valid UTF-8, and
    where "\r\n" and "\r" are read as "\n") with every occurrence of the
    shared-library directive replaced by the static-library directive.  It
    holds no occurrence of the shared-library directive; it holds the
    static-library directive if the extracted descriptor held the
    shared-library one; and, line by line, a line read without the
    directive is written back as it was read.  For a descriptor without
    carriage returns the lines read are its lines. *)
Theorem extract_patches_build_descriptor pf self overwrite w w' :
  extract pf self overwrite w = (Ok tt, w') ->
  exists wx m t pre post,
    extract_tree pf self overwrite w = (Ok tt, wx) /\
    fs wx !! cmakefile self = Some (File m t pre) /\
    fs w' !! cmakefile self = Some (File m None post) /\
    utf8_valid pre = true /\
    post = patch_line (universal_newlines pre) /\
    contains oldtext post = false /\
    (contains oldtext pre = true -> contains newtext post = true) /\
    Forall2 (fun before after => contains oldtext before = false -> after = before)
      (splitlines (universal_newlines pre)) (splitlines post) /\
    (CR ∉ pre -> universal_newlines pre = pre).
Proof.
  intros H. apply extract_Ok_inv in H as (wx & w4 & w5 & Hx & H4 & H5 & H6).
  pose proof (extract_chmod_touches pf self _ _ _ _ H4 (cmakefile_not_tool self)) as E4.
  apply extract_patch_Ok in H5 as (m & t & pre & lines & Hpre & Hlines & ->).
  unfold readlines in Hlines. destruct (utf8_valid pre) eqn:Hutf; [|done].
  injection Hlines as <-. rewrite concat_patch_lines in H6.
  exists wx, m, t, pre, (patch_line (universal_newlines pre)).
  split; [done|]. split; [by rewrite <- E4|]. split.
  { apply extract_svn_Ok in H6.
    assert (fs w' !! cmakefile self =
            fs (set_fs (<[cmakefile self := File m None (patch_line (universal_newlines pre))]>
                          (fs w4)) w4) !! cmakefile self) as ->.
    { destruct (tuple_lt _ _); [|by subst w'].
      destruct (_ !! svn_hfile self); subst w'; [done|].
      cbn [fs set_fs]. by rewrite lookup_insert_ne by (symmetry; apply svn_hfile_not_cmakefile). }
    cbn [fs set_fs]. by rewrite lookup_insert_eq. }
  split; [done|]. split; [done|]. split; [apply patch_line_no_oldtext|]. split.
  { intros Hold. apply replace_present; [apply oldtext_nonempty|].
    apply contains_universal_newlines; [apply oldtext_no_CR|apply oldtext_nonempty|done]. }
  split; [|apply universal_newlines_id].
  rewrite splitlines_patch. apply Forall2_patch_lines.
Qed.

Lemma extract_patches_build_descriptor_witness :
  exists m,
    fs (snd (extract posix sample_self true rooted_world)) !! cmakefile sample_self =
      Some (File m None
              (encode "add_library(geos_c)" ++ [LF] ++
               encode "target_link_libraries(geos_c geos-static)" ++ [LF])).
Proof.
  destruct (extract_patches_build_descriptor posix sample_self true rooted_world
              (snd (extract posix sample_self true rooted_world)))
    as (wx & m & t & pre & post & Hx & Hpre & Hpost & _ & -> & _).
  - apply run_Ok. vm_compute. reflexivity.
  - exists m. rewrite Hpost. do 2 f_equal.
    assert (wx = snd (extract_tree posix sample_self true rooted_world)) as ->
      by (by rewrite Hx).
    assert (Some (File m t pre) =
            Some (File 420%N None
                    (encode "add_library(geos_c)" ++ [LF] ++
                     encode "target_link_libraries(geos_c geos)" ++ [LF]))) as [= _ _ ->].
    { rewrite <- Hpre. vm_compute. reflexivity. }
    vm_compute. reflexivity.
Defined.

(** * Further properties *)

(** ** Trees *)

Lemma is_tree_b_sound f : is_tree_b f = true -> is_tree f.
Proof.
  unfold is_tree_b, is_tree. intros H q n Hq Hne.
  rewrite forallb_forall in H.
  specialize (H (q, n)). simpl in H.
  assert (In (q, n) (map_to_list f)) as Hin
    by (apply list_elem_of_In; by apply elem_of_map_to_list).
  specialize (H Hin). destruct q as [|x q]; [done|].
  match type of H with
  | context [match ?x with _ => _ end] => destruct x as [[m|? ? ?]|] eqn:E
  end; try done.
  by exists m.
Qed.

(** In a tree nothing lies below a missing entry. *)
Lemma is_tree_absent_below f (p : path) :
  is_tree f -> f !! p = None -> forall q, p `prefix_of` q -> f !! q = None.
Proof.
  intros Ht Hp q [k ->]. induction k as [|x k IH] using rev_ind.
  - by rewrite app_nil_r.
  - destruct (f !! (p ++ k ++ [x])) as [n|] eqn:E; [|done].
    assert (p ++ k ++ [x] <> []) as Hne
      by (intros E'; apply (f_equal length) in E'; rewrite !length_app in E';
          simpl in E'; lia).
    destruct (Ht _ _ E Hne) as [m E'].
    rewrite app_assoc in E'. unfold dirname in E'. rewrite removelast_last in E'.
    unfold path in *. rewrite IH in E'. discriminate.
Qed.

(** ** Construction and disposal *)

Lemma map_int_empty_field l : In EmptyString l -> map_int l = None.
Proof.
  induction l as [|f l IH]; [done|]. intros [->|Hin]; simpl.
  - done.
  - destruct (int f); [|done]. by rewrite IH.
Qed.

(** X1: a version string with an empty field (the empty string, a leading,
    trailing or doubled dot) is refused with [ValueError] before anything
    is done to the file system, whatever the root. *)
Theorem init_refuses_empty_field pf v r w :
  In EmptyString (split "." v) ->
  exists msg, __init__ pf v r w = (Raise (Exn ValueError msg), w).
Proof.
  intros H. unfold __init__. rewrite (map_int_empty_field _ H). by eexists.
Qed.

Lemma init_refuses_empty_field_witness :
  exists msg, __init__ posix "3..1" None sample_world = (Raise (Exn ValueError msg), sample_world).
Proof.
  apply init_refuses_empty_field. right. left. reflexivity.
Defined.

(** The candidate that [tempfile] settles on. *)
Lemma mktemp_name pf n b a names w p w' :
  mktemp pf n b a names w = (Ok p, w') ->
  exists name, In name names /\ p = tempdir pf ++ [b +:+ name +:+ a].
Proof.
  revert w'. induction names as [|name names IH]; simpl; intros w'; [done|].
  unfold try_except, bind.
  destruct (create _ n w) as [rc wc] eqn:C.
  apply create_inv in C as [(-> & Hfree & ->)|(e & -> & ->)].
  - unfold ret. intros [= <- <-]. exists name. split; [by left|done].
  - destruct (is_FileExistsError (exn_class e)); [|done].
    intros H. apply IH in H as (name' & Hin & ->). exists name'. split; [by right|done].
Qed.









(** ** Downloading *)

Lemma request_eq pf url w :
  try_except (lift (urlopen pf url (has_SSLContext pf))) is_TypeError
             (lift (urlopen pf url false)) w = (request pf url, w).
Proof.
  unfold try_except, lift, request.
  destruct (urlopen pf url (has_SSLContext pf)) as [conn|e]; [done|].
  by destruct (is_TypeError (exn_class e)).
Qed.

(** The directory a temporary entry is made in is a writable directory. *)
Lemma mktemp_parent pf n b a names w p w' :
  mktemp pf n b a names w = (Ok p, w') ->
  exists m, fs w !! tempdir pf = Some (Dir m) /\ writable m = true.
Proof.
  revert w'. induction names as [|nm names IH]; simpl; intros w'; [done|].
  unfold try_except, bind.
  destruct (create _ n w) as [rc wc] eqn:C.
  pose proof C as C'.
  apply create_inv in C' as [(-> & Hf & ->)|(e & -> & ->)].
  - intros _. unfold create in C. rewrite Hf in C.
    unfold dirname in C. rewrite removelast_last in C.
    destruct (fs w !! tempdir pf) as [[m|? ? ?]|]; try done.
    destruct (writable m) eqn:Hw; [|done]. by exists m.
  - destruct (is_FileExistsError (exn_class e)); [apply IH|done].
Qed.

(** Writing a file never replaces a directory. *)
Lemma write_bytes_keeps_dir pf (p : path) d w r w' (q : path) m :
  write_bytes pf p d w = (r, w') ->
  fs w !! q = Some (Dir m) -> fs w' !! q = Some (Dir m).
Proof.
  intros H Hq. destruct (decide (p = q)) as [->|Hne].
  - unfold write_bytes in H. unfold path in *. rewrite Hq in H. by injection H as _ <-.
  - rewrite <- Hq. eapply only_touches_write_bytes; [done|]. done.
Qed.

Lemma temp_name_not_zippath pf self name suffix :
  tempdir pf ++ ["tmp" +:+ name +:+ suffix] <> zippath self.
Proof.
  unfold zippath. intros E. apply app_inj_tail in E as [_ E]. done.
Qed.

(** What the part of [download] behind the request does, given the answer
    [conn] and the time stamp [date]: the temporary copy is made and
    removed again, and only the archive can have changed. *)
Lemma download_copy pf self conn (date : option Z) suffix w r w' :
  (tmpzip ← NamedTemporaryFile pf suffix;
   try_finally
     (write_bytes pf tmpzip (body conn);;
      data ← read_bytes tmpzip; write_bytes pf (zippath self) data)
     (unlink tmpzip);;
   match date with Some t => utime (zippath self) t | None => pass end) w = (r, w') ->
  (forall q, q <> zippath self -> fs w' !! q = fs w !! q) /\
  (r = Ok tt ->
   exists m, fs w' !! zippath self = Some (File m date (body conn)) /\
     match fs w !! zippath self with
     | Some (File m0 _ _) => m = m0
     | Some (Dir _) => False
     | None => m = file_mode pf
     end).
Proof.
  intros H.
  apply bind_inv in H as [(e & H & ->)|(tmp & w1 & H1 & H)].
  { apply mktemp_inv in H as [(? & [=] & _)|(? & _ & ->)]. by split. }
  unfold NamedTemporaryFile in H1.
  destruct (mktemp_name _ _ _ _ _ _ _ _ H1) as (name & _ & Htmp).
  destruct (mktemp_parent _ _ _ _ _ _ _ _ H1) as (md & Hdir & Hw).
  apply mktemp_inv in H1 as [(? & [= <-] & Hfree & ->)|(? & [=] & _)].
  assert (tmp <> zippath self) as Hne by (rewrite Htmp; apply temp_name_not_zippath).
  assert (tempdir pf <> tmp) as Hne'.
  { rewrite Htmp. intros E. apply (f_equal length) in E.
    rewrite length_app in E. simpl in E. lia. }
  assert (dirname tmp = tempdir pf) as Hdn
    by (rewrite Htmp; unfold dirname; by rewrite removelast_last).
  (* the copy into the temporary file *)
  pose (w2 := set_fs (<[tmp := File 384 None (body conn)]> (fs w)) w).
  assert (write_bytes pf tmp (body conn)
            (set_fs (<[tmp := File 384 None []]> (fs w)) w) = (Ok tt, w2)) as Hc1.
  { unfold write_bytes. cbn [fs set_fs]. rewrite lookup_insert_eq.
    change (writable 384) with true. cbv iota. unfold w2, set_fs. cbn [fs cwd calls].
    by rewrite insert_insert_eq. }
  assert (read_bytes tmp w2 = (Ok (body conn), w2)) as Hc2.
  { unfold read_bytes, w2. cbn [fs set_fs]. by rewrite lookup_insert_eq. }
  apply bind_inv in H as [(e & H & ->)|([] & w5 & H & Hu)].
  - (* the copy to the archive fails *)
    apply try_finally_inv in H as (r1 & w3 & Hb & Hfin).
    rewrite (bind_eq _ _ _ _ _ Hc1), (bind_eq _ _ _ _ _ Hc2) in Hb.
    assert (exists w4, unlink tmp w3 = (Ok tt, w4) /\ fs w4 = delete tmp (fs w3)) as (w4 & Hun & Hw4).
    { unfold unlink.
      rewrite (only_touches_write_bytes _ _ _ _ _ _ tmp Hb) by (by intros <-).
      unfold w2. cbn [fs set_fs]. rewrite lookup_insert_eq, Hdn.
      rewrite (write_bytes_keeps_dir _ _ _ _ _ _ (tempdir pf) md Hb)
        by (unfold w2; cbn [fs set_fs]; by rewrite lookup_insert_ne).
      rewrite Hw. by eexists. }
    rewrite Hun in Hfin. destruct Hfin as [[[= <-] <-]|(e' & [=] & _)].
    split; [|done]. intros q Hq. rewrite Hw4.
    destruct (decide (q = tmp)) as [->|Hqt].
    + by rewrite lookup_delete_eq.
    + rewrite lookup_delete_ne by done.
      rewrite (only_touches_write_bytes _ _ _ _ _ _ q Hb) by (by intros <-).
      unfold w2. cbn [fs set_fs]. by rewrite lookup_insert_ne.
  - apply try_finally_inv in H as (r1 & w3 & Hb & Hfin).
    rewrite (bind_eq _ _ _ _ _ Hc1), (bind_eq _ _ _ _ _ Hc2) in Hb.
    assert (exists w4, unlink tmp w3 = (Ok tt, w4) /\ fs w4 = delete tmp (fs w3)) as (w4 & Hun & Hw4).
    { unfold unlink.
      rewrite (only_touches_write_bytes _ _ _ _ _ _ tmp Hb) by (by intros <-).
      unfold w2. cbn [fs set_fs]. rewrite lookup_insert_eq, Hdn.
      rewrite (write_bytes_keeps_dir _ _ _ _ _ _ (tempdir pf) md Hb)
        by (unfold w2; cbn [fs set_fs]; by rewrite lookup_insert_ne).
      rewrite Hw. by eexists. }
    rewrite Hun in Hfin. destruct Hfin as [[[= ->] <-]|(e' & [=] & _)].
    apply write_bytes_Ok in Hb as (m & -> & Hm).
    cbn [fs set_fs] in Hw4, Hm. unfold w2 in Hw4, Hm. cbn [fs set_fs] in Hw4, Hm.
    rewrite lookup_insert_ne in Hm by done.
    assert (fs w5 !! zippath self = Some (File m None (body conn))) as Hz5.
    { rewrite Hw4, lookup_delete_ne by done. by rewrite lookup_insert_eq. }
    assert (forall q, q <> zippath self -> fs w5 !! q = fs w !! q) as Hf5.
    { intros q Hq. rewrite Hw4. destruct (decide (q = tmp)) as [->|Hqt].
      - by rewrite lookup_delete_eq.
      - rewrite lookup_delete_ne, !lookup_insert_ne by done. done. }
    destruct date as [t|].
    + unfold utime in Hu. unfold path in *. rewrite Hz5 in Hu. injection Hu as <- <-.
      split.
      * intros q Hq. cbn [fs set_fs]. rewrite lookup_insert_ne by done. by apply Hf5.
      * intros _. exists m. cbn [fs set_fs]. by rewrite lookup_insert_eq.
    + injection Hu as <- <-. split; [done|]. intros _. by exists m.
Qed.

Lemma download_unfold pf self w :
  download pf self w =
    match request pf (link self) with
    | Raise e => (Raise e, w)
    | Ok conn =>
        match last_modified conn with
        | Some d =>
            match strptime pf d URL_DATETIME_FMT with
            | None => (Raise (Exn ValueError "time data does not match format"), w)
            | Some t =>
                (tmpzip ← NamedTemporaryFile pf (splitext_ext (link self));
                 try_finally
                   (write_bytes pf tmpzip (body conn);;
                    data ← read_bytes tmpzip; write_bytes pf (zippath self) data)
                   (unlink tmpzip);;
                 utime (zippath self) t) w
            end
        | None =>
            (tmpzip ← NamedTemporaryFile pf (splitext_ext (link self));
             try_finally
               (write_bytes pf tmpzip (body conn);;
                data ← read_bytes tmpzip; write_bytes pf (zippath self) data)
               (unlink tmpzip);;
             pass) w
        end
    end.
Proof.
  unfold download. rewrite download_zipname. fold (zippath self). fold (link self).
  unfold bind at 1. rewrite request_eq.
  destruct (request pf (link self)) as [conn|e]; [|done].
  unfold bind at 1.
  destruct (last_modified conn) as [d|]; [|done].
  by destruct (strptime pf d URL_DATETIME_FMT).
Qed.

(** X5: however [download] ends, no entry of the file system other than
    the archive file differs from before (the temporary copy is gone
    again), and the process stays where it was and launches nothing. *)
Theorem download_changes_archive_only pf self w r w' :
  download pf self w = (r, w') ->
  (forall q, q <> zippath self -> fs w' !! q = fs w !! q) /\
  cwd w' = cwd w /\ calls w' = calls w.
Proof.
  intros H. split; [|by apply keeps_process_download in H].
  rewrite download_unfold in H.
  destruct (request pf (link self)) as [conn|e]; [|by injection H as _ <-].
  destruct (last_modified conn) as [d|].
  - destruct (strptime pf d URL_DATETIME_FMT) as [t|]; [|by injection H as _ <-].
    by apply (download_copy pf self conn (Some t)) in H as [H _].
  - by apply (download_copy pf self conn None) in H as [H _].
Qed.

Lemma download_changes_archive_only_witness :
  fs (snd (download posix sample_self rooted_world)) !! ["tmp"; "tmpk3x9q2ab.zip"] = None.
Proof.
  destruct (download_changes_archive_only posix sample_self rooted_world
              (fst (download posix sample_self rooted_world))
              (snd (download posix sample_self rooted_world))) as [H _].
  - apply surjective_pairing.
  - rewrite H; [reflexivity|discriminate].
Defined.

(** X6: when [download] returns, the archive file sits where [extract]
    looks for it and holds the body of the answer; its time stamp is the
    parsed Last-Modified header when the answer has one, and none is set
    otherwise; a file that was there keeps its mode, a new one gets the
    default mode. *)
Theorem download_stores_body pf self w w' :
  download pf self w = (Ok tt, w') ->
  exists conn m,
    request pf (link self) = Ok conn /\
    fs w' !! zippath self =
      Some (File m
              (match last_modified conn with
               | Some d => strptime pf d URL_DATETIME_FMT
               | None => None
               end)
              (body conn)) /\
    match fs w !! zippath self with
    | Some (File m0 _ _) => m = m0
    | Some (Dir _) => False
    | None => m = file_mode pf
    end.
Proof.
  intros H. rewrite download_unfold in H.
  destruct (request pf (link self)) as [conn|e]; [|done].
  exists conn. destruct (last_modified conn) as [d|].
  - destruct (strptime pf d URL_DATETIME_FMT) as [t|]; [|done].
    apply (download_copy pf self conn (Some t)) in H as [_ H].
    destruct (H eq_refl) as (m & Hm & Hold). by exists m.
  - apply (download_copy pf self conn None) in H as [_ H].
    destruct (H eq_refl) as (m & Hm & Hold). by exists m.
Qed.

Lemma download_stores_body_witness :
  fs (snd (download posix_dated sample_self rooted_world)) !! zippath sample_self
    = Some (File 420%N (Some 1609459200) sample_zip).
Proof.
  destruct (download_stores_body posix_dated sample_self rooted_world
              (snd (download posix_dated sample_self rooted_world)))
    as (conn & m & Hreq & Hz & Hm).
  - apply run_Ok. vm_compute. reflexivity.
  - injection Hreq as <-. rewrite Hz. vm_compute in Hm. subst m. reflexivity.
Defined.

(** X7: a Last-Modified header that does not match the format makes
    [download] raise [ValueError] before anything is written: the world is
    what it was, although the body was at hand. *)
Theorem download_refuses_bad_date pf self w conn d :
  request pf (link self) = Ok conn ->
  last_modified conn = Some d ->
  strptime pf d URL_DATETIME_FMT = None ->
  exists msg, download pf self w = (Raise (Exn ValueError msg), w).
Proof.
  intros Hreq Hd Hp. rewrite download_unfold, Hreq, Hd, Hp. by eexists.
Qed.

Lemma download_refuses_bad_date_witness :
  exists msg,
    download posix_bad_date sample_self rooted_world = (Raise (Exn ValueError msg), rooted_world).
Proof.
  apply (download_refuses_bad_date posix_bad_date sample_self rooted_world
           (Response (Some "yesterday") sample_zip) "yesterday"); reflexivity.
Defined.

(** ** The version string read again *)






(** ** Extracting without a network *)



(** ** More on the invocations of [build] *)

(** X10: on Windows, from 3.6.0 on, the job count is passed to the build
    step as the pair "-j", numeral in front of the build arguments (the
    numeral reads back as [njobs]); the environment is inherited as it
    is, and the configure arguments carry no generator. *)
Theorem build_arguments_windows_modern pf self installdir njobs :
  os_name pf = "nt" ->
  tuple_lt (version_tuple self) [3; 6; 0] = false ->
  config_opts pf self installdir =
    [ "-DCMAKE_INSTALL_PREFIX=" +:+ path_str pf installdir;
      "-DGEOS_ENABLE_TESTS=OFF"; "-DCMAKE_BUILD_TYPE=Release" ] /\
  build_opts pf self njobs =
    [ "-j"; str njobs; "--config"; "Release"; "--target"; "install" ] /\
  int (str njobs) = Some njobs /\
  build_env pf self njobs = environ pf /\
  (forall w w',
     build pf self (Some installdir) njobs w = (Ok tt, w') ->
     calls w' = calls w ++ [configure_call pf self installdir; build_call pf self njobs]).
Proof.
  intros Hnt Hlt. split; [|split; [|split; [|split]]].
  - unfold config_opts. by rewrite (on_nt_true _ Hnt), Hlt.
  - unfold build_opts, build_opts_env. by rewrite (on_nt_true _ Hnt), Hlt.
  - apply int_str.
  - unfold build_env, build_opts_env. by rewrite (on_nt_true _ Hnt), Hlt.
  - intros w w' H. apply build_Ok_calls in H as (d & Hd & ->).
    by rewrite (Hd installdir eq_refl).
Qed.

Lemma build_arguments_windows_modern_witness :
  config_opts windows modern_self ["opt"; "geos"] =
    [ "-DCMAKE_INSTALL_PREFIX=\opt\geos";
      "-DGEOS_ENABLE_TESTS=OFF"; "-DCMAKE_BUILD_TYPE=Release" ] /\
  build_opts windows modern_self 4 =
    [ "-j"; "4"; "--config"; "Release"; "--target"; "install" ].
Proof.
  destruct (build_arguments_windows_modern windows modern_self ["opt"; "geos"] 4
              eq_refl eq_refl) as (Hc & Ho & _).
  split; [exact Hc|exact Ho].
Defined.

Lemma chdir_calls p w r w' : chdir p w = (r, w') -> calls w' = calls w.
Proof.
  intros H. by apply chdir_inv in H as [(_ & -> & _)|(? & _ & -> & _)].
Qed.

Lemma subprocess_call_inv pf args env w r w' :
  subprocess_call pf args env w = (r, w') ->
  cwd w' = cwd w /\
  ((exists s, r = Ok s /\ calls w' = calls w ++ [Invocation args env (cwd w)]) \/
   (exists e, r = Raise e /\ w' = w)).
Proof.
  unfold subprocess_call, raise.
  destruct (run pf args env (cwd w) (fs w)) as [[f s]|]; intros [= <- <-].
  - split; [done|]. left. by exists s.
  - split; [done|]. right. by eexists.
Qed.

(** What the guarded part of [build] launches. *)
Lemma build_body_calls pf self d njobs w r w' :
  (try_except (makedirs pf (zipfold self ++ ["build"])) is_OSError pass;;
   chdir (zipfold self ++ ["build"]);;
   _ ← subprocess_call pf (["cmake"; ".."] ++ config_opts pf self d) (environ pf);
   try_except (makedirs pf d) is_OSError pass;;
   _ ← subprocess_call pf (["cmake"; "--build"; "."] ++ build_opts pf self njobs)
                       (build_env pf self njobs);
   pass) w = (r, w') ->
  exists l, calls w' = calls w ++ l /\ launches pf self d njobs l /\
    (r = Ok tt -> l = [configure_call pf self d; build_call pf self njobs]).
Proof.
  intros H.
  assert (forall p w1 r1 w2,
            try_except (makedirs pf p) is_OSError pass w1 = (r1, w2) ->
            cwd w2 = cwd w1 /\ calls w2 = calls w1) as Hmk.
  { intros p w1 r1 w2 E.
    by apply keeps_process_try_except in E;
      [|apply keeps_process_makedirs|apply keeps_process_ret]. }
  assert (forall w0, calls w' = calls w0 -> calls w0 = calls w -> forall e, r = Raise e ->
            exists l, calls w' = calls w ++ l /\ launches pf self d njobs l /\
              (r = Ok tt -> l = [configure_call pf self d; build_call pf self njobs])) as Hnone.
  { intros w0 E1 E2 e ->. exists []. rewrite app_nil_r. split; [congruence|].
    split; [by left|done]. }
  apply bind_inv in H as [(e & H1 & ->)|([] & w1 & H1 & H)].
  { apply Hmk in H1 as [_ H1]. by eapply (Hnone w). }
  apply Hmk in H1 as [_ Hl1].
  apply bind_inv in H as [(e & H2 & ->)|([] & w2 & H2 & H)].
  { apply chdir_calls in H2. eapply (Hnone w); [congruence|done..]. }
  apply chdir_inv in H2 as [(_ & -> & _)|(? & [=] & _)].
  apply bind_inv in H as [(e & H3 & ->)|(s1 & w3 & H3 & H)].
  { apply subprocess_call_inv in H3 as [_ [(? & [=] & _)|(? & _ & ->)]].
    eapply (Hnone w); [|done..]. done. }
  apply subprocess_call_inv in H3 as [Hc3 [(? & _ & Hl3)|(? & [=] & _)]].
  cbn [cwd calls set_cwd] in Hc3, Hl3.
  apply bind_inv in H as [(e & H4 & ->)|([] & w4 & H4 & H)].
  { apply Hmk in H4 as [_ H4]. exists [configure_call pf self d].
    split; [unfold configure_call; congruence|]. split; [right; by left|done]. }
  apply Hmk in H4 as [Hc4 Hl4].
  apply bind_inv in H as [(e & H5 & ->)|(s2 & w5 & H5 & H)].
  { apply subprocess_call_inv in H5 as [_ [(? & [=] & _)|(? & _ & ->)]].
    exists [configure_call pf self d].
    split; [unfold configure_call; congruence|]. split; [right; by left|done]. }
  apply subprocess_call_inv in H5 as [_ [(? & _ & Hl5)|(? & [=] & _)]].
  injection H as <- <-.
  exists [configure_call pf self d; build_call pf self njobs].
  split; [|split; [right; by right|done]].
  unfold configure_call, build_call. rewrite Hl5, Hl4, Hl3, Hl1, Hc4, Hc3.
  by rewrite <- app_assoc.
Qed.

(** X11: however [build] ends, the only programs it has launched are the
    configure step and then the build step, once each and in this order,
    both from the build directory: the log of launches has grown by
    nothing, by the configure step, or by both. *)
Theorem build_launches_at_most_two pf self installdir njobs w r w' :
  build pf self installdir njobs w = (r, w') ->
  exists d l, calls w' = calls w ++ l /\ launches pf self d njobs l /\
    (forall d', installdir = Some d' -> d = d') /\
    Forall (fun c => inv_cwd c = zipfold self ++ ["build"] /\
                     exists args, inv_argv c = "cmake" :: args) l.
Proof.
  intros H.
  assert (forall d l, launches pf self d njobs l ->
            Forall (fun c => inv_cwd c = zipfold self ++ ["build"] /\
                             exists args, inv_argv c = "cmake" :: args) l) as Hall.
  { intros d l [-> | [-> | ->]]; repeat constructor; by eexists. }
  assert (forall w0, calls w' = calls w0 -> calls w0 = calls w ->
            exists d l, calls w' = calls w ++ l /\ launches pf self d njobs l /\
              (forall d', installdir = Some d' -> d = d') /\
              Forall (fun c => inv_cwd c = zipfold self ++ ["build"] /\
                               exists args, inv_argv c = "cmake" :: args) l) as Hnone.
  { intros w0 E1 E2. exists (default [] installdir), [].
    rewrite app_nil_r. split; [congruence|]. split; [by left|].
    split; [by intros d' ->|constructor]. }
  unfold build in H.
  apply bind_inv in H as [(e & Ha & _)|([] & wa & Ha & H)].
  { apply keeps_process_extract in Ha as [_ Ha]. by apply (Hnone w). }
  apply keeps_process_extract in Ha as [_ Ha].
  apply bind_inv in H as [(e & Hb & _)|(d & wb & Hb & H)].
  { destruct installdir; [done|].
    apply keeps_process_default_installdir in Hb as [_ Hb]. apply (Hnone wa); done. }
  assert (calls wb = calls wa /\ forall d', installdir = Some d' -> d = d') as [Hlb Hd].
  { destruct installdir.
    - injection Hb as <- <-. split; [done|]. by intros d' [= ->].
    - apply keeps_process_default_installdir in Hb as [_ Hb]. by split. }
  apply bind_inv in H as [(e & Hc & _)|(c & wc & Hc & H)].
  { apply getcwd_inv in Hc as [-> _]. apply (Hnone wa); congruence. }
  apply getcwd_inv in Hc as [-> _].
  apply try_finally_inv in H as (r1 & w1 & Hbody & Hfin).
  assert (calls w' = calls w1) as Hl'.
  { destruct Hfin as [[F _]|(e & F & _)]; by apply chdir_calls in F. }
  apply build_body_calls in Hbody as (l & Hl & Hlaunch & _).
  exists d, l. split; [congruence|]. split; [done|]. split; [done|by eapply Hall].
Qed.

Lemma build_launches_at_most_two_witness :
  calls (snd (build posix_without_cmake sample_self (Some ["opt"; "geos"]) 1 rooted_world)) = [].
Proof.
  destruct (build_launches_at_most_two posix_without_cmake sample_self (Some ["opt"; "geos"]) 1
              rooted_world
              (fst (build posix_without_cmake sample_self (Some ["opt"; "geos"]) 1 rooted_world))
              (snd (build posix_without_cmake sample_self (Some ["opt"; "geos"]) 1 rooted_world)))
    as (d & l & Hl & _).
  - apply surjective_pairing.
  - vm_compute. reflexivity.
Defined.

(** X12: without an install directory, and with a known home directory,
    a [build] that returns has configured the install prefix
    [~/.local/share/libgeos] below that home directory. *)
Theorem build_default_prefix pf self njobs h w w' :
  home pf = Some h ->
  build pf self None njobs w = (Ok tt, w') ->
  calls w' = calls w ++
    [ configure_call pf self (h ++ [".local"; "share"; "libgeos"]);
      build_call pf self njobs ] /\
  In ("-DCMAKE_INSTALL_PREFIX=" +:+ path_str pf (h ++ [".local"; "share"; "libgeos"]))
     (config_opts pf self (h ++ [".local"; "share"; "libgeos"])).
Proof.
  intros Hh H. split.
  - unfold build in H.
    apply bind_Ok in H as ([] & wa & Ha & H).
    apply keeps_process_extract in Ha as [_ Ha].
    apply bind_Ok in H as (d & wb & Hb & H).
    unfold default_installdir in Hb. rewrite Hh in Hb. injection Hb as <- <-.
    apply bind_Ok in H as (c & wc & Hc & H).
    apply getcwd_inv in Hc as [-> _].
    apply try_finally_Ok in H as (w1 & Hbody & Hfin).
    apply chdir_calls in Hfin.
    apply build_body_calls in Hbody as (l & Hl & _ & Hok).
    rewrite (Hok eq_refl) in Hl. congruence.
  - unfold config_opts. destruct (_ && _); simpl; tauto.
Qed.

Lemma build_default_prefix_witness :
  map inv_argv (calls (snd (build posix sample_self None 1 rooted_world))) =
    [ [ "cmake"; ".."; "-DCMAKE_INSTALL_PREFIX=/home/user/.local/share/libgeos";
        "-DGEOS_ENABLE_TESTS=OFF"; "-DCMAKE_BUILD_TYPE=Release" ];
      [ "cmake"; "--build"; "."; "--config"; "Release"; "--target"; "install" ] ].
Proof.
  destruct (build_default_prefix posix sample_self 1 ["home"; "user"] rooted_world
              (snd (build posix sample_self None 1 rooted_world)) eq_refl) as [H _].
  - apply run_Ok. vm_compute. reflexivity.
  - rewrite H. reflexivity.
Defined.

(** ** Well-formed file systems *)

Lemma dirname_ne (p : path) : p <> [] -> dirname p <> p.
Proof.
  intros Hp E. destruct (exists_last Hp) as (l & x & ->).
  unfold dirname in E. rewrite removelast_last in E.
  apply (f_equal length) in E. rewrite length_app in E. simpl in E. lia.
Qed.

Lemma dirname_prefix (p : path) : dirname p `prefix_of` p.
Proof.
  destruct (decide (p = [])) as [->|Hp]; [done|].
  destruct (exists_last Hp) as (l & x & ->).
  unfold dirname. rewrite removelast_last. by apply prefix_app_r.
Qed.

(** In a well-formed file system everything above an entry is there. *)
Lemma is_tree_above f (p q : path) :
  is_tree f -> is_Some (f !! p) -> q `prefix_of` p -> is_Some (f !! q).
Proof.
  intros Ht. revert q. induction p as [|x p IH] using rev_ind; intros q Hp Hq.
  - apply prefix_nil_inv in Hq. by subst q.
  - destruct Hq as [k Hk]. destruct k as [|y k _] using rev_ind.
    + rewrite app_nil_r in Hk. by subst q.
    + rewrite app_assoc in Hk. apply app_inj_tail in Hk as [Hk _].
      destruct Hp as [n Hn].
      assert (p ++ [x] <> []) as Hne by (by destruct p).
      destruct (Ht _ _ Hn Hne) as [m Hm].
      unfold dirname in Hm. rewrite removelast_last in Hm.
      apply IH; [by eexists|]. by exists k.
Qed.

(** Putting a node where the directory above exists, without turning a
    directory into a file, keeps the file system well formed. *)
Lemma is_tree_insert f (p : path) n :
  is_tree f ->
  (p <> [] -> exists m, f !! dirname p = Some (Dir m)) ->
  (forall m, f !! p = Some (Dir m) -> exists m', n = Dir m') ->
  is_tree (<[p := n]> f).
Proof.
  intros Ht Hup Hkind q n0 Hq Hne.
  destruct (decide (q = p)) as [->|Hqp].
  - destruct (Hup Hne) as [m Hm]. exists m.
    rewrite lookup_insert_ne; [done|]. intros E. by apply (dirname_ne p).
  - rewrite lookup_insert_ne in Hq by done.
    destruct (Ht _ _ Hq Hne) as [m Hm].
    destruct (decide (dirname q = p)) as [E|E].
    + rewrite E in *. destruct (Hkind _ Hm) as [m' ->]. exists m'.
      by rewrite lookup_insert_eq.
    + exists m. by rewrite lookup_insert_ne.
Qed.

Lemma is_tree_delete_file f (p : path) m t d :
  is_tree f -> f !! p = Some (File m t d) -> is_tree (delete p f).
Proof.
  intros Ht Hp q n0 Hq Hne.
  apply lookup_delete_Some in Hq as [Hqp Hq].
  destruct (Ht _ _ Hq Hne) as [m' Hm]. exists m'.
  rewrite lookup_delete_ne; [done|]. intros E. unfold path in *. congruence.
Qed.

Lemma is_tree_remove_below f (p : path) :
  is_tree f -> is_tree (filter (fun kv => ¬ p `prefix_of` kv.1) f).
Proof.
  intros Ht q n0 Hq Hne.
  apply map_lookup_filter_Some in Hq as [Hq Hnp]. simpl in Hnp.
  destruct (Ht _ _ Hq Hne) as [m Hm]. exists m.
  apply map_lookup_filter_Some. split; [done|]. simpl.
  intros Hpre. apply Hnp. etransitivity; [done|apply dirname_prefix].
Qed.

Lemma keeps_tree_ret {A} (a : A) : keeps_tree (ret a).
Proof. by intros w r w' [= _ <-]. Qed.

Lemma keeps_tree_raise {A} c msg : keeps_tree (@raise A c msg).
Proof. by intros w r w' [= _ <-]. Qed.

Lemma keeps_tree_lift {A} (x : result A) : keeps_tree (lift x).
Proof. by intros w r w' [= _ <-]. Qed.

Lemma keeps_tree_bind {A B} (m : M A) (k : A -> M B) :
  keeps_tree m -> (forall a, keeps_tree (k a)) -> keeps_tree (bind m k).
Proof.
  intros Hm Hk w r w' H Ht.
  apply bind_inv in H as [(e & H & _)|(a & w1 & H1 & H)].
  - by eapply Hm.
  - eapply Hk; [done|]. by eapply Hm.
Qed.

Lemma keeps_tree_try_except {A} (m h : M A) c :
  keeps_tree m -> keeps_tree h -> keeps_tree (try_except m c h).
Proof.
  intros Hm Hh w r w'. unfold try_except.
  destruct (m w) as [[a|e] w1] eqn:E.
  - intros [= _ <-] Ht. by eapply Hm.
  - destruct (c (exn_class e)).
    + intros H Ht. eapply Hh; [done|]. by eapply Hm.
    + intros [= _ <-] Ht. by eapply Hm.
Qed.

Lemma keeps_tree_try_finally {A} (m : M A) f :
  keeps_tree m -> keeps_tree f -> keeps_tree (try_finally m f).
Proof.
  intros Hm Hf w r w' H Ht.
  apply try_finally_inv in H as (r1 & w1 & H1 & [[H _]|(e & H & _)]);
    (eapply Hf; [done|]; by eapply Hm).
Qed.

Lemma keeps_tree_for_each {A} (l : list A) body :
  (forall x, keeps_tree (body x)) -> keeps_tree (for_each l body).
Proof.
  intros Hb. induction l as [|x l IH]; [apply keeps_tree_ret|].
  cbn [for_each]. apply keeps_tree_bind; [apply Hb|]. by intros _.
Qed.

Lemma keeps_tree_path_exists p : keeps_tree (path_exists p).
Proof. by intros w r w' [= _ <-]. Qed.

Lemma keeps_tree_path_isdir p : keeps_tree (path_isdir p).
Proof. by intros w r w' [= _ <-]. Qed.

Lemma keeps_tree_glob_sh d : keeps_tree (glob_sh d).
Proof. by intros w r w' [= _ <-]. Qed.

Lemma keeps_tree_read_bytes p : keeps_tree (read_bytes p).
Proof.
  intros w r w'. unfold read_bytes, raise.
  destruct (fs w !! p) as [[m|m t d]|]; [| destruct (readable m) |]; by intros [= _ <-].
Qed.

Lemma keeps_tree_create (p : path) n : keeps_tree (create p n).
Proof.
  intros w r w' H Ht. unfold create, raise in H.
  destruct (fs w !! p) eqn:Ep; [by injection H as _ <-|].
  destruct (fs w !! dirname p) as [[m|? ? ?]|] eqn:Ed; try (by injection H as _ <-).
  destruct (writable m); injection H as _ <-; [|done].
  cbn [fs set_fs]. apply is_tree_insert; [done|by exists m|].
  intros m' Hm'. unfold path in *. congruence.
Qed.

Lemma keeps_tree_chmod (p : path) mode : keeps_tree (chmod p mode).
Proof.
  intros w r w' H Ht. unfold chmod, raise in H.
  destruct (fs w !! p) as [[m|m t d]|] eqn:Ep; injection H as _ <-; [..|done];
    cbn [fs set_fs]; (apply is_tree_insert; [done|by eapply Ht| ]).
  - intros _ _. by eexists.
  - intros m' Hm'. unfold path in *. congruence.
Qed.

Lemma keeps_tree_utime (p : path) t : keeps_tree (utime p t).
Proof.
  intros w r w' H Ht. unfold utime, raise in H.
  destruct (fs w !! p) as [[m|m t0 d]|] eqn:Ep; injection H as _ <-; try done.
  cbn [fs set_fs]. apply is_tree_insert; [done|by eapply Ht|].
  intros m' Hm'. unfold path in *. congruence.
Qed.

Lemma keeps_tree_unlink (p : path) : keeps_tree (unlink p).
Proof.
  intros w r w' H Ht. unfold unlink, raise in H.
  destruct (fs w !! p) as [[m|m t0 d]|] eqn:Ep; try (by injection H as _ <-).
  destruct (fs w !! dirname p) as [[m'|? ? ?]|]; try (by injection H as _ <-).
  destruct (writable m'); injection H as _ <-; [|done].
  cbn [fs set_fs]. by eapply is_tree_delete_file.
Qed.


Lemma keeps_tree_write_bytes pf (p : path) d : keeps_tree (write_bytes pf p d).
Proof.
  intros w r w' H Ht. unfold write_bytes, raise in H.
  destruct (fs w !! p) as [[m|m t0 d0]|] eqn:Ep; [by injection H as _ <-|..].
  - destruct (writable m); injection H as _ <-; [|done].
    cbn [fs set_fs]. apply is_tree_insert; [done|by eapply Ht|].
    intros m' Hm'. unfold path in *. congruence.
  - by eapply keeps_tree_create.
Qed.

Lemma keeps_tree_makedirs_rev pf rp : keeps_tree (makedirs_rev pf rp).
Proof.
  induction rp as [|tail rhead IH]; cbn [makedirs_rev]; [apply keeps_tree_create|].
  apply keeps_tree_bind; [apply keeps_tree_path_exists|]. intros b.
  apply keeps_tree_bind; [|intros _; apply keeps_tree_create].
  destruct b; [apply keeps_tree_ret|].
  apply keeps_tree_try_except; [done|apply keeps_tree_ret].
Qed.

Lemma keeps_tree_makedirs pf p : keeps_tree (makedirs pf p).
Proof. apply keeps_tree_makedirs_rev. Qed.

Lemma keeps_tree_mktemp pf n b a names : keeps_tree (mktemp pf n b a names).
Proof.
  induction names as [|name names IH]; cbn [mktemp]; [apply keeps_tree_raise|].
  apply keeps_tree_try_except; [|done].
  apply keeps_tree_bind; [apply keeps_tree_create|]. intros _. apply keeps_tree_ret.
Qed.

Lemma keeps_tree_extract_member pf dest m : keeps_tree (extract_member pf dest m).
Proof.
  unfold extract_member.
  apply keeps_tree_bind; [apply keeps_tree_path_exists|]. intros b.
  apply keeps_tree_bind.
  { destruct b; [apply keeps_tree_ret|apply keeps_tree_makedirs]. }
  intros _. destruct (m_dir m); [|apply keeps_tree_write_bytes].
  apply keeps_tree_bind; [apply keeps_tree_path_isdir|].
  intros []; [apply keeps_tree_ret|apply keeps_tree_create].
Qed.

Lemma keeps_tree_extractall pf dest ms : keeps_tree (extractall pf dest ms).
Proof.
  induction ms as [|m ms IH]; cbn [extractall]; [apply keeps_tree_ret|].
  apply keeps_tree_bind; [apply keeps_tree_extract_member|]. by intros _.
Qed.

Lemma keeps_tree_download pf self : keeps_tree (download pf self).
Proof.
  unfold download.
  apply keeps_tree_bind.
  { apply keeps_tree_try_except; apply keeps_tree_lift. }
  intros conn. apply keeps_tree_bind.
  { destruct (last_modified conn) as [d|]; [|apply keeps_tree_ret].
    destruct (strptime pf d _); [apply keeps_tree_ret|apply keeps_tree_raise]. }
  intros date. apply keeps_tree_bind; [apply keeps_tree_mktemp|].
  intros tmpzip. apply keeps_tree_bind.
  { apply keeps_tree_try_finally; [|apply keeps_tree_unlink].
    apply keeps_tree_bind; [apply keeps_tree_write_bytes|]. intros _.
    apply keeps_tree_bind; [apply keeps_tree_read_bytes|]. intros data.
    apply keeps_tree_write_bytes. }
  intros _. destruct date; [apply keeps_tree_utime|apply keeps_tree_ret].
Qed.


Lemma keeps_tree_extract_chmod pf self : keeps_tree (extract_chmod pf self).
Proof.
  unfold extract_chmod. apply keeps_tree_bind; [apply keeps_tree_glob_sh|].
  intros scripts. apply keeps_tree_for_each. intros p. apply keeps_tree_chmod.
Qed.

Lemma keeps_tree_extract_patch pf self : keeps_tree (extract_patch pf self).
Proof.
  unfold extract_patch. apply keeps_tree_bind; [apply keeps_tree_read_bytes|].
  intros data. destruct (readlines data);
    [apply keeps_tree_write_bytes|apply keeps_tree_raise].
Qed.

Lemma keeps_tree_extract_svn pf self : keeps_tree (extract_svn pf self).
Proof.
  unfold extract_svn. destruct (tuple_lt _ _); [|apply keeps_tree_ret].
  apply keeps_tree_bind; [apply keeps_tree_path_exists|].
  intros []; [apply keeps_tree_ret|apply keeps_tree_write_bytes].
Qed.

(** ** What [extract] can reach *)

Lemma adds_only_ret {A} S (a : A) : adds_only S (ret a).
Proof. by intros w r w' q [= _ <-]. Qed.

Lemma adds_only_bind {A B} S (m : M A) (k : A -> M B) :
  adds_only S m -> (forall a, adds_only S (k a)) -> adds_only S (bind m k).
Proof.
  intros Hm Hk w r w' q H Hq.
  apply bind_inv in H as [(e & H & _)|(a & w1 & H1 & H)].
  - by eapply Hm.
  - pose proof (Hm _ _ _ _ H1 Hq) as E1.
    rewrite <- E1. eapply Hk; [done|]. by rewrite E1.
Qed.

Lemma adds_only_try_except {A} S (m h : M A) c :
  adds_only S m -> adds_only S h -> adds_only S (try_except m c h).
Proof.
  intros Hm Hh w r w' q. unfold try_except.
  destruct (m w) as [[a|e] w1] eqn:E.
  - intros [= _ <-] Hq. by eapply Hm.
  - pose proof (Hm _ _ _ q E) as E1. destruct (c (exn_class e)).
    + intros H Hq. rewrite <- (E1 Hq). eapply Hh; [done|]. by rewrite (E1 Hq).
    + intros [= _ <-] Hq. by apply E1.
Qed.

Lemma adds_only_mono {A} (S S' : path -> Prop) (m : M A) :
  (forall q, S q -> S' q) -> adds_only S m -> adds_only S' m.
Proof. intros HS Hm w r w' q H [Hq|Hq]; eapply Hm; eauto. Qed.

Lemma adds_only_path_exists S p : adds_only S (path_exists p).
Proof. by intros w r w' q [= _ <-]. Qed.

Lemma adds_only_create (p : path) n : adds_only (eq p) (create p n).
Proof.
  intros w r w' q H Hq.
  apply create_inv in H as [(_ & Hfree & ->)|(e & _ & ->)]; [|done].
  cbn [fs set_fs]. apply lookup_insert_ne. intros <-.
  destruct Hq as [[n0 Hq]|Hq]; [|done]. unfold path in *. congruence.
Qed.

(** [os.makedirs] makes directories that are missing on the way to its
    argument and changes nothing that is there. *)
Lemma adds_only_makedirs_rev pf rp :
  adds_only (fun q => q `prefix_of` rev rp) (makedirs_rev pf rp).
Proof.
  induction rp as [|tail rhead IH]; cbn [makedirs_rev].
  - eapply adds_only_mono; [|apply adds_only_create]. simpl.
    by intros q <-.
  - apply adds_only_bind; [apply adds_only_path_exists|]. intros b.
    apply adds_only_bind.
    + eapply adds_only_mono with (S := fun q => q `prefix_of` rev rhead).
      { intros q Hq. cbn [rev]. by apply prefix_app_r. }
      destruct b; [apply adds_only_ret|].
      apply adds_only_try_except; [done|apply adds_only_ret].
    + intros _. eapply adds_only_mono; [|apply adds_only_create].
      intros q <-. by cbn [rev].
Qed.













Lemma rooted_world_is_tree : is_tree (fs rooted_world).
Proof. apply is_tree_b_sound. vm_compute. reflexivity. Qed.


(** ** The scripts *)

Lemma set_mode_idemp mode n : set_mode mode (set_mode mode n) = set_mode mode n.
Proof. by destruct n. Qed.

Lemma chmod_Ok (p : path) mode w n :
  fs w !! p = Some n ->
  chmod p mode w = (Ok tt, set_fs (<[p := set_mode mode n]> (fs w)) w).
Proof. unfold chmod. intros ->. by destruct n. Qed.

(** Changing the mode of entries that exist does not fail, and sets the
    mode of each of them. *)
Lemma for_each_chmod mode (l : list path) w :
  (forall p, p ∈ l -> is_Some (fs w !! p)) ->
  exists w', for_each l (fun p => chmod p mode) w = (Ok tt, w') /\
    forall q : path,
      fs w' !! q = if decide (q ∈ l) then set_mode mode <$> fs w !! q else fs w !! q.
Proof.
  revert w. induction l as [|x l IH]; intros w Hl.
  - exists w. split; [done|]. intros q. destruct (decide (q ∈ [])) as [Hq|]; [|done].
    by apply elem_of_nil in Hq.
  - destruct (Hl x) as [n Hn]; [by left|].
    destruct (IH (set_fs (<[x := set_mode mode n]> (fs w)) w)) as (w' & Hw' & Hq').
    { intros p Hp. cbn [fs set_fs]. destruct (decide (p = x)) as [->|Hne].
      - rewrite lookup_insert_eq. by eexists.
      - rewrite lookup_insert_ne by done. apply Hl. by right. }
    exists w'. split.
    + cbn [for_each]. by rewrite (bind_eq _ _ _ _ _ (chmod_Ok x mode w n Hn)).
    + intros q. rewrite Hq'. cbn [fs set_fs].
      destruct (decide (q = x)) as [->|Hne].
      * rewrite lookup_insert_eq, Hn.
        destruct (decide (x ∈ x :: l)) as [_|Hx]; [|exfalso; apply Hx; by left].
        destruct (decide (x ∈ l)); [|done]. simpl. by rewrite set_mode_idemp.
      * rewrite lookup_insert_ne by done.
        destruct (decide (q ∈ l)) as [Hin|Hin], (decide (q ∈ x :: l)) as [Hin'|Hin'];
          try done.
        -- exfalso. apply Hin'. by right.
        -- exfalso. apply elem_of_cons in Hin' as [?|?]; done.
Qed.

(** What the mode step does to the whole tree: it cannot fail, and it
    sets the mode of the scripts directly in [tools]. *)
Lemma extract_chmod_Ok pf self w :
  is_tree (fs w) ->
  exists w', extract_chmod pf self w = (Ok tt, w') /\
    forall q : path,
      fs w' !! q =
        if is_script_of (zipfold self ++ ["tools"]) q
        then set_mode 493 <$> fs w !! q
        else fs w !! q.
Proof.
  intros Ht. unfold extract_chmod. unfold bind at 1. unfold glob_sh at 1.
  set (scripts := match fs w !! (zipfold self ++ ["tools"]) with
                  | Some (Dir _) =>
                      filter (fun p => is_script_of (zipfold self ++ ["tools"]) p = true)
                             (map_to_list (fs w)).*1
                  | _ => []
                  end).
  assert (forall p, p ∈ sorted pf scripts -> p ∈ scripts) as Hsorted.
  { intros p Hp. unfold sorted in Hp. by rewrite merge_sort_Permutation in Hp. }
  assert (forall p, p ∈ scripts ->
            is_Some (fs w !! p) /\ is_script_of (zipfold self ++ ["tools"]) p = true) as Hs.
  { intros p Hp. unfold scripts in Hp.
    destruct (fs w !! (zipfold self ++ ["tools"])) as [[m|? ? ?]|];
      try (by apply elem_of_nil in Hp).
    apply list_elem_of_filter in Hp as [Hp Hin]. split; [|done].
    apply list_elem_of_fmap in Hin as ([p' n] & -> & Hin).
    apply elem_of_map_to_list in Hin. by eexists. }
  destruct (for_each_chmod 493 (sorted pf scripts) w) as (w' & Hw' & Hq).
  { intros p Hp. by apply Hs, Hsorted. }
  exists w'. split; [done|]. intros q. rewrite Hq.
  destruct (decide (q ∈ sorted pf scripts)) as [Hin|Hin].
  - apply Hsorted, Hs in Hin as [_ ->]. done.
  - destruct (is_script_of (zipfold self ++ ["tools"]) q) eqn:Hsc; [|done].
    destruct (fs w !! q) as [n|] eqn:Hn; [|done].
    exfalso. apply Hin. unfold sorted. rewrite merge_sort_Permutation.
    pose proof Hsc as Hname. apply is_script_of_inv in Hname as [name ->].
    assert (zipfold self ++ ["tools"] ++ [name] <> []) as Hne by (by destruct (zipfold self)).
    rewrite <- app_assoc in Hn.
    destruct (Ht _ _ Hn Hne) as [m Hm].
    rewrite app_assoc in Hm. unfold dirname in Hm. rewrite removelast_last in Hm.
    unfold scripts. unfold path in *. rewrite Hm.
    apply list_elem_of_filter. split; [done|].
    apply list_elem_of_fmap. exists (zipfold self ++ ["tools"] ++ [name], n).
    split; [by rewrite app_assoc|]. by apply elem_of_map_to_list.
Qed.




(** ** Overwriting an extracted tree *)


Lemma set_fs_id w : set_fs (fs w) w = w.
Proof. by destruct w. Qed.

Lemma world_eq a b : fs a = fs b -> cwd a = cwd b -> calls a = calls b -> a = b.
Proof. destruct a, b. simpl. by intros -> -> ->. Qed.



(** A member changes its target, and adds what is missing above it. *)
Lemma extract_member_frame pf (dest : path) m w r w' (q : path) :
  extract_member pf dest m w = (r, w') ->
  q <> dest ++ m_name m ->
  is_Some (fs w !! q) \/ ~ q `prefix_of` dest ++ m_name m ->
  fs w' !! q = fs w !! q.
Proof.
  intros H Hne Hq. unfold extract_member in H.
  assert (forall w0 r0 w1, makedirs pf (dirname (dest ++ m_name m)) w0 = (r0, w1) ->
            fs w0 !! q = fs w !! q -> fs w1 !! q = fs w !! q) as Hmk.
  { intros w0 r0 w1 E E0. rewrite <- E0.
    unfold makedirs in E. eapply adds_only_makedirs_rev; [done|].
    rewrite rev_involutive, E0. destruct Hq as [Hq|Hq]; [by left|right].
    intros Hp. apply Hq. etransitivity; [done|apply dirname_prefix]. }
  apply bind_inv in H as [(e & H & _)|(b & w1 & H1 & H)]; [done|].
  injection H1 as _ <-.
  apply bind_inv in H as [(e & H & _)|([] & w2 & H2 & H)].
  { destruct b; [done|]. by eapply Hmk. }
  assert (fs w2 !! q = fs w !! q) as E2.
  { destruct b; [by injection H2 as <-|]. by eapply Hmk. }
  rewrite <- E2. destruct (m_dir m).
  - apply bind_inv in H as [(e & H & _)|(b' & w3 & H3 & H)]; [done|].
    injection H3 as _ <-. destruct b'; [by injection H as _ <-|].
    eapply only_touches_create; [done|]. by intros <-.
  - eapply only_touches_write_bytes; [done|]. by intros <-.
Qed.

Lemma extractall_frame pf (dest : path) ms w r w' (q : path) :
  extractall pf dest ms w = (r, w') ->
  (forall m, m ∈ ms -> q <> dest ++ m_name m) ->
  is_Some (fs w !! q) \/ (forall m, m ∈ ms -> ~ q `prefix_of` dest ++ m_name m) ->
  fs w' !! q = fs w !! q.
Proof.
  revert w. induction ms as [|m ms IH]; cbn [extractall]; intros w H Hne Hq.
  - by injection H as _ <-.
  - assert (is_Some (fs w !! q) \/ ~ q `prefix_of` dest ++ m_name m) as Hq1.
    { destruct Hq as [Hq|Hq]; [by left|right]. apply Hq. by left. }
    assert (q <> dest ++ m_name m) as Hne1 by (apply Hne; by left).
    apply bind_inv in H as [(e & H & _)|([] & w1 & H1 & H)].
    + by eapply extract_member_frame.
    + pose proof (extract_member_frame _ _ _ _ _ _ q H1 Hne1 Hq1) as E1.
      rewrite <- E1. apply IH; [done|..].
      * intros m' Hm'. apply Hne. by right.
      * rewrite E1. destruct Hq as [Hq|Hq]; [by left|right].
        intros m' Hm'. apply Hq. by right.
Qed.

Lemma keeps_tree_extract_fetch pf self : keeps_tree (extract_fetch pf self).
Proof.
  unfold extract_fetch. apply keeps_tree_bind; [apply keeps_tree_path_exists|].
  intros []; [apply keeps_tree_ret|apply keeps_tree_download].
Qed.


(** Clearing the destination: afterwards nothing is left below it, and
    the rest is as before. *)
Lemma extract_clear_Ok pf self w w' :
  is_tree (fs w) ->
  extract_clear pf self true w = (Ok tt, w') ->
  w' = set_fs (filter (fun kv => ¬ zipfold self `prefix_of` kv.1) (fs w)) w.
Proof.
  intros Ht H. unfold extract_clear in H.
  rewrite (bind_eq _ _ _ _ _ (path_exists_eq _ _)) in H.
  destruct (fs w !! zipfold self) as [n|] eqn:Ez.
  - rewrite bool_decide_eq_true_2 in H by done. cbn [negb] in H.
    unfold rmtree, raise in H. rewrite Ez in H.
    destruct n as [m|? ? ?]; [|done].
    destruct (fs w !! dirname (zipfold self)) as [[m'|? ? ?]|]; try done.
    destruct (writable m'); [|done]. by injection H as <-.
  - rewrite bool_decide_eq_false_2 in H by (by intros [? ?]).
    injection H as <-. rewrite map_filter_id; [by rewrite set_fs_id|].
    intros q n Hq. simpl. intros Hp.
    rewrite (is_tree_absent_below _ _ Ht Ez q Hp) in Hq. done.
Qed.

(** What [extract] does behind the download and the clearing. *)
Lemma extract_steps pf self w w' :
  extract pf self true w = (Ok tt, w') ->
  is_tree (fs w) ->
  exists wf wc mode t data ms wx w4 w5,
    extract_fetch pf self w = (Ok tt, wf) /\
    extract_clear pf self true wf = (Ok tt, wc) /\
    wc = set_fs (filter (fun kv => ¬ zipfold self `prefix_of` kv.1) (fs wf)) wf /\
    fs wf !! zippath self = Some (File mode t data) /\
    fs wc !! zippath self = Some (File mode t data) /\
    zip_members pf data = Some ms /\
    extractall pf (root self) ms wc = (Ok tt, wx) /\
    extract_chmod pf self wx = (Ok tt, w4) /\
    extract_patch pf self w4 = (Ok tt, w5) /\
    extract_svn pf self w5 = (Ok tt, w') /\
    is_tree (fs wc) /\ is_tree (fs wx).
Proof.
  intros H Ht. unfold extract in H.
  apply bind_Ok in H as ([] & wf & Hf & H).
  apply bind_Ok in H as ([] & wc & Hc & H).
  apply bind_Ok in H as ([] & wx & Hx & H).
  apply bind_Ok in H as ([] & w4 & H4 & H).
  apply bind_Ok in H as ([] & w5 & H5 & H).
  assert (is_tree (fs wf)) as Htf by (by eapply keeps_tree_extract_fetch).
  pose proof (extract_clear_Ok _ _ _ _ Htf Hc) as Ewc.
  assert (is_tree (fs wc)) as Htc.
  { rewrite Ewc. cbn [fs set_fs]. by apply is_tree_remove_below. }
  unfold extract_unzip, ZipFile in Hx.
  apply bind_Ok in Hx as (ms & wz & Hz & Hx).
  apply bind_Ok in Hz as (data & wz' & Hr & Hz).
  apply read_bytes_Ok in Hr as [-> (mode & t & Hr)].
  destruct (zip_members pf data) as [ms'|] eqn:Hms; [|done].
  injection Hz as <- <-.
  exists wf, wc, mode, t, data, ms', wx, w4, w5.
  repeat split; try done.
  - rewrite Ewc in Hr. cbn [fs set_fs] in Hr.
    by apply map_lookup_filter_Some in Hr as [Hr _].
  - by eapply keeps_tree_extractall.
Qed.

(** X15: in a well-formed file system, when [extract] with overwriting
    returns, nothing of an earlier tree is left: every entry at or below
    the destination directory lies on the way to the target of a member
    of the archive, or is the revision header written for a release
    below 3.6.0. *)
Theorem extract_leaves_no_stale_entry pf self w w' :
  is_tree (fs w) ->
  extract pf self true w = (Ok tt, w') ->
  exists mode t data ms,
    fs (snd (extract_fetch pf self w)) !! zippath self = Some (File mode t data) /\
    zip_members pf data = Some ms /\
    forall q : path, zipfold self `prefix_of` q -> is_Some (fs w' !! q) ->
      (q = svn_hfile self /\ tuple_lt (version_tuple self) [3; 6; 0] = true) \/
      exists m, m ∈ ms /\ q `prefix_of` root self ++ m_name m.
Proof.
  intros Ht H.
  destruct (extract_steps _ _ _ _ H Ht)
    as (wf & wc & mode & t & data & ms & wx & w4 & w5 &
        Hf & Hc & Ewc & Hzf & Hzc & Hms & Hx & H4 & H5 & H6 & Htc & Htx).
  exists mode, t, data, ms. rewrite Hf. cbn [snd]. split; [done|]. split; [done|].
  intros q Hq Hsome.
  (* the revision header *)
  assert (is_Some (fs w5 !! q) \/
          (q = svn_hfile self /\ tuple_lt (version_tuple self) [3; 6; 0] = true)) as [H5q|Hsvn];
    [|clear Hsome|by left].
  { apply extract_svn_Ok in H6.
    destruct (tuple_lt (version_tuple self) [3; 6; 0]); [|left; by subst w'].
    destruct (fs w5 !! svn_hfile self) eqn:Es; [left; by subst w'|].
    subst w'. cbn [fs set_fs] in Hsome.
    destruct (decide (q = svn_hfile self)) as [->|Hne]; [by right|left].
    by rewrite lookup_insert_ne in Hsome. }
  right.
  (* the patch and the modes *)
  assert (is_Some (fs w4 !! q)) as H4q.
  { apply extract_patch_Ok in H5 as (m0 & t0 & pre & lines & Hpre & _ & ->).
    cbn [fs set_fs] in H5q. destruct (decide (q = cmakefile self)) as [->|Hne].
    - by eexists.
    - by rewrite lookup_insert_ne in H5q. }
  assert (is_Some (fs wx !! q)) as Hxq.
  { destruct (extract_chmod_Ok pf self wx Htx) as (w4' & E4 & Hmode).
    rewrite E4 in H4. injection H4 as ->. rewrite Hmode in H4q.
    destruct (is_script_of _ q); [|done]. by apply fmap_is_Some in H4q. }
  (* the members *)
  destruct (decide (Exists (fun m => q `prefix_of` root self ++ m_name m) ms)) as [Hex|Hno].
  { apply Exists_exists in Hex as (m & Hm & Hp). by exists m. }
  exfalso.
  assert (fs wx !! q = fs wc !! q) as E.
  { eapply extractall_frame; [done|..].
    - intros m Hm ->. apply Hno, Exists_exists. by exists m.
    - right. intros m Hm Hp. apply Hno, Exists_exists. by exists m. }
  rewrite E, Ewc in Hxq. cbn [fs set_fs] in Hxq. destruct Hxq as [n Hn].
  apply map_lookup_filter_Some in Hn as [_ Hn]. by apply Hn.
Qed.

Lemma extracted_world_with_archive_is_tree : is_tree (fs extracted_world_with_archive).
Proof. apply is_tree_b_sound. vm_compute. reflexivity. Qed.

(** The file README of the earlier tree is gone. *)
Lemma extract_leaves_no_stale_entry_witness :
  fs extracted_world_with_archive !! ["work"; "geos"; "geos-3.5.0"; "README"]
    = Some (File 420%N None (encode "GEOS")) /\
  fs (snd (extract posix sample_self true extracted_world_with_archive))
    !! ["work"; "geos"; "geos-3.5.0"; "README"] = None.
Proof.
  split; [vm_compute; reflexivity|].
  destruct (extract_leaves_no_stale_entry posix sample_self extracted_world_with_archive
              (snd (extract posix sample_self true extracted_world_with_archive)))
    as (mode & t & data & ms & Hz & Hms & Hstale).
  - apply is_tree_b_sound. vm_compute. reflexivity.
  - apply run_Ok. vm_compute. reflexivity.
  - destruct (fs (snd (extract posix sample_self true extracted_world_with_archive))
                !! ["work"; "geos"; "geos-3.5.0"; "README"]) as [n|] eqn:E; [|reflexivity].
    exfalso.
    vm_compute in Hz. injection Hz as <- <- <-.
    vm_compute in Hms. injection Hms as <-.
    destruct (Hstale ["work"; "geos"; "geos-3.5.0"; "README"]) as [[Hs _]|(m & Hm & [k Hk])].
    + exists ["README"]. reflexivity.
    + exists n. exact E.
    + vm_compute in Hs. discriminate Hs.
    + repeat (apply elem_of_cons in Hm as [->|Hm]); [..|by apply elem_of_nil in Hm];
        vm_compute in Hk; discriminate Hk.
Defined.

(** ** Extracting twice *)

















(** ** The build tool is missing *)

Lemma subprocess_call_no_tool pf args env w :
  (forall a e c f, run pf a e c f = None) ->
  exists e, subprocess_call pf args env w = (Raise e, w).
Proof. intros Hno. unfold subprocess_call, raise. rewrite Hno. by eexists. Qed.

(** X17: when the build tool cannot be started, [build] never returns
    normally, and the log of launches is what it was. *)
Theorem build_needs_the_tool pf self installdir njobs w r w' :
  (forall a e c f, run pf a e c f = None) ->
  build pf self installdir njobs w = (r, w') ->
  (exists e, r = Raise e) /\ calls w' = calls w.
Proof.
  intros Hno H. unfold build in H.
  assert (forall p w1 r1 w2,
            try_except (makedirs pf p) is_OSError pass w1 = (r1, w2) ->
            calls w2 = calls w1) as Hmk.
  { intros p w1 r1 w2 E.
    by apply keeps_process_try_except in E as [_ ?];
      [|apply keeps_process_makedirs|apply keeps_process_ret]. }
  apply bind_inv in H as [(e & Ha & ->)|([] & wa & Ha & H)].
  { apply keeps_process_extract in Ha as [_ Ha]. split; [by eexists|done]. }
  apply keeps_process_extract in Ha as [_ Ha].
  apply bind_inv in H as [(e & Hb & ->)|(d & wb & Hb & H)].
  { split; [by eexists|]. destruct installdir; [done|].
    apply keeps_process_default_installdir in Hb as [_ Hb]. congruence. }
  assert (calls wb = calls wa) as Hlb.
  { destruct installdir; [by injection Hb as _ <-|].
    by apply keeps_process_default_installdir in Hb as [_ Hb]. }
  apply bind_inv in H as [(e & Hc & ->)|(c & wc & Hc & H)].
  { apply getcwd_inv in Hc as [-> _]. split; [by eexists|congruence]. }
  apply getcwd_inv in Hc as [-> _].
  apply try_finally_inv in H as (r1 & w1 & Hbody & Hfin).
  assert ((exists e, r1 = Raise e) /\ calls w1 = calls wb) as [[e1 ->] Hl1].
  { apply bind_inv in Hbody as [(e & H1 & ->)|([] & w2 & H1 & Hbody)].
    { apply Hmk in H1. split; [by eexists|done]. }
    apply Hmk in H1.
    apply bind_inv in Hbody as [(e & H2 & ->)|([] & w3 & H2 & Hbody)].
    { apply chdir_calls in H2. split; [by eexists|congruence]. }
    apply chdir_calls in H2.
    destruct (subprocess_call_no_tool pf (["cmake"; ".."] ++ config_opts pf self d)
                (environ pf) w3 Hno) as [e He].
    rewrite (bind_eq_Raise _ _ _ _ _ He) in Hbody. injection Hbody as <- <-.
    split; [by eexists|congruence]. }
  assert (calls w' = calls w1) as Hl'.
  { destruct Hfin as [[F _]|(e & F & _)]; by apply chdir_calls in F. }
  split; [|congruence].
  destruct Hfin as [[_ ->]|(e & _ & ->)]; by eexists.
Qed.

Lemma build_needs_the_tool_witness :
  exists e,
    fst (build posix_without_cmake sample_self (Some ["opt"; "geos"]) 1 rooted_world) = Raise e.
Proof.
  destruct (build_needs_the_tool posix_without_cmake sample_self (Some ["opt"; "geos"]) 1
              rooted_world
              (fst (build posix_without_cmake sample_self (Some ["opt"; "geos"]) 1 rooted_world))
              (snd (build posix_without_cmake sample_self (Some ["opt"; "geos"]) 1 rooted_world)))
    as [H _].
  - intros a e c f. reflexivity.
  - apply surjective_pairing.
  - exact H.
Defined.

(** ** The constructor with a root *)

Lemma makes_dirs_ret {A} mode S (a : A) : makes_dirs mode S (ret a).
Proof. intros w r w' q [= _ <-]. by left. Qed.

Lemma makes_dirs_bind {A B} mode S (m : M A) (k : A -> M B) :
  makes_dirs mode S m -> (forall a, makes_dirs mode S (k a)) -> makes_dirs mode S (bind m k).
Proof.
  intros Hm Hk w r w' q H.
  apply bind_inv in H as [(e & H & _)|(a & w1 & H1 & H)]; [by eapply Hm|].
  destruct (Hm _ _ _ q H1) as [E1|(N1 & D1 & S1)];
    destruct (Hk _ _ _ _ q H) as [E2|(N2 & D2 & S2)].
  - left. congruence.
  - right. repeat split; try done. congruence.
  - right. repeat split; try done. congruence.
  - congruence.
Qed.

Lemma makes_dirs_try_except {A} mode S (m h : M A) c :
  makes_dirs mode S m -> makes_dirs mode S h -> makes_dirs mode S (try_except m c h).
Proof.
  intros Hm Hh w r w' q. unfold try_except.
  destruct (m w) as [[a|e] w1] eqn:E.
  - intros [= _ <-]. by eapply Hm.
  - destruct (c (exn_class e)).
    + intros H.
      destruct (Hm _ _ _ q E) as [E1|(N1 & D1 & S1)];
        destruct (Hh _ _ _ q H) as [E2|(N2 & D2 & S2)].
      * left. congruence.
      * right. repeat split; try done. congruence.
      * right. repeat split; try done. congruence.
      * congruence.
    + intros [= _ <-]. by eapply Hm.
Qed.

Lemma makes_dirs_mono {A} mode (S S' : path -> Prop) (m : M A) :
  (forall q, S q -> S' q) -> makes_dirs mode S m -> makes_dirs mode S' m.
Proof.
  intros HS Hm w r w' q H. destruct (Hm _ _ _ q H) as [E|(N & D & Hq)]; [by left|].
  right. repeat split; try done. by apply HS.
Qed.

Lemma makes_dirs_path_exists mode S p : makes_dirs mode S (path_exists p).
Proof. intros w r w' q [= _ <-]. by left. Qed.

Lemma makes_dirs_mkdir pf (p : path) :
  makes_dirs (dir_mode pf) (eq p) (mkdir p (dir_mode pf)).
Proof.
  intros w r w' q H. unfold mkdir in H.
  apply create_inv in H as [(_ & Hfree & ->)|(e & _ & ->)]; [|by left].
  cbn [fs set_fs]. destruct (decide (q = p)) as [->|Hne].
  - right. by rewrite lookup_insert_eq.
  - left. by rewrite lookup_insert_ne.
Qed.

Lemma makes_dirs_makedirs_rev pf rp :
  makes_dirs (dir_mode pf) (fun q => q `prefix_of` rev rp) (makedirs_rev pf rp).
Proof.
  induction rp as [|tail rhead IH]; cbn [makedirs_rev].
  - eapply makes_dirs_mono; [|apply makes_dirs_mkdir]. by intros q <-.
  - apply makes_dirs_bind; [apply makes_dirs_path_exists|]. intros b.
    apply makes_dirs_bind.
    + eapply makes_dirs_mono with (S := fun q => q `prefix_of` rev rhead).
      { intros q Hq. cbn [rev]. by apply prefix_app_r. }
      destruct b; [apply makes_dirs_ret|].
      apply makes_dirs_try_except; [done|apply makes_dirs_ret].
    + intros _. eapply makes_dirs_mono; [|apply makes_dirs_mkdir].
      intros q <-. by cbn [rev].
Qed.

(** X18: the constructor with a root changes no entry that exists; all
    it can add are directories of the default mode on the way from the
    top of the file system to the root; it neither moves the process nor
    launches a program; and in a well-formed file system in which the
    root exists it changes nothing at all. *)
Theorem init_with_root_makes_directories_only pf v r w self w' :
  __init__ pf v (Some r) w = (Ok self, w') ->
  temp self = false /\ root self = r /\
  (forall q : path,
     fs w' !! q = fs w !! q \/
     (fs w !! q = None /\ fs w' !! q = Some (Dir (dir_mode pf)) /\ q `prefix_of` r)) /\
  cwd w' = cwd w /\ calls w' = calls w /\
  (is_tree (fs w) -> is_Some (fs w !! r) -> w' = w).
Proof.
  intros H. pose proof (init_version_tuple _ _ _ _ _ _ H) as Hv.
  rewrite (init_with_root _ _ _ _ _ Hv) in H. injection H as <- <-.
  split; [done|]. split; [done|].
  destruct (try_except (makedirs pf r) is_OSError pass w) as [r0 w0] eqn:E. cbn [snd].
  assert (forall q : path,
            fs w0 !! q = fs w !! q \/
            (fs w !! q = None /\ fs w0 !! q = Some (Dir (dir_mode pf)) /\ q `prefix_of` r)) as Hq.
  { intros q. revert E.
    apply (makes_dirs_try_except (dir_mode pf) (fun q => q `prefix_of` r));
      [|apply makes_dirs_ret].
    unfold makedirs. eapply makes_dirs_mono; [|apply makes_dirs_makedirs_rev].
    intros q'. by rewrite rev_involutive. }
  assert (cwd w0 = cwd w /\ calls w0 = calls w) as [Hc Hl].
  { revert E. apply keeps_process_try_except;
      [apply keeps_process_makedirs|apply keeps_process_ret]. }
  repeat split; try done.
  intros Ht Hr. apply world_eq; [|done..].
  apply map_eq. intros q. destruct (Hq q) as [Eq|(Hnone & _ & Hp)]; [done|].
  destruct (is_tree_above _ _ _ Ht Hr Hp) as [n Hn]. congruence.
Qed.

Lemma init_with_root_makes_directories_only_witness :
  fs (snd (__init__ posix "3.5.0" (Some ["work"; "geos"; "src"]) sample_world))
     !! ["home"] = Some (Dir 493%N) /\
  fs (snd (__init__ posix "3.5.0" (Some ["work"; "geos"; "src"]) sample_world))
     !! ["work"; "geos"] = Some (Dir 493%N).
Proof.
  destruct (init_with_root_makes_directories_only posix "3.5.0" ["work"; "geos"; "src"]
              sample_world
              (Build_GeosLibrary [3; 5; 0] false ["work"; "geos"; "src"])
              (snd (__init__ posix "3.5.0" (Some ["work"; "geos"; "src"]) sample_world)))
    as (_ & _ & Hq & _).
  - apply run_Ok. vm_compute. reflexivity.
  - split.
    + destruct (Hq ["home"]) as [E|(N & _)];
        [etransitivity; [exact E|vm_compute; reflexivity]|].
      vm_compute in N. discriminate N.
    + destruct (Hq ["work"; "geos"]) as [E|(_ & D & _)]; [|exact D].
      exfalso. revert E. vm_compute. discriminate.
Defined.

(** ** The network fails *)

(** X19: when the request fails (after the retry without a TLS context,
    if the first attempt raised [TypeError]), [download] raises that
    error and the world is exactly what it was: no temporary file, no
    archive file. *)
Theorem download_propagates_request_error pf self w e :
  request pf (link self) = Raise e ->
  download pf self w = (Raise e, w).
Proof. intros H. by rewrite download_unfold, H. Qed.

Lemma download_propagates_request_error_witness :
  download offline sample_self rooted_world
    = (Raise (Exn URLError "Network is unreachable"), rooted_world).
Proof.
  apply (download_propagates_request_error offline sample_self rooted_world). reflexivity.
Defined.

(** ** Directories stay *)

(** A member never replaces an entry by one of the other kind, and never
    removes one. *)
Lemma extract_member_keeps_kind pf (dest : path) m w r w' (q : path) n :
  extract_member pf dest m w = (r, w') ->
  fs w !! q = Some n ->
  exists n', fs w' !! q = Some n' /\ is_dir n' = is_dir n /\
    (is_dir n = true -> n' = n).
Proof.
  intros H Hn.
  destruct (decide (q = dest ++ m_name m)) as [->|Hne].
  2:{ exists n. split; [|done].
      rewrite (extract_member_frame _ _ _ _ _ _ q H Hne); [done|]. left. by eexists. }
  unfold extract_member in H.
  apply bind_inv in H as [(e & H & _)|(b & w1 & H1 & H)]; [done|].
  injection H1 as _ <-.
  assert (forall w0 r0 w1, makedirs pf (dirname (dest ++ m_name m)) w0 = (r0, w1) ->
            fs w0 !! (dest ++ m_name m) = Some n ->
            fs w1 !! (dest ++ m_name m) = Some n) as Hmk.
  { intros w0 r0 w1 E E0. rewrite <- E0.
    unfold makedirs in E. eapply adds_only_makedirs_rev; [done|]. left. by eexists. }
  apply bind_inv in H as [(e & H & _)|([] & w2 & H2 & H)].
  { exists n. split; [|done]. destruct b; [by injection H as _ <-|]. by eapply Hmk. }
  assert (fs w2 !! (dest ++ m_name m) = Some n) as E2.
  { destruct b; [by injection H2 as <-|]. by eapply Hmk. }
  destruct (m_dir m).
  - apply bind_inv in H as [(e & H & _)|(b' & w3 & H3 & H)]; [done|].
    injection H3 as _ <-. exists n. split; [|done].
    destruct b'; [by injection H as _ <-|].
    apply create_inv in H as [(_ & Hfree & _)|(e & _ & ->)]; [|done].
    unfold path in *. congruence.
  - unfold write_bytes, raise in H. unfold path in *. rewrite E2 in H.
    destruct n as [mo|mo t d]; [injection H as _ <-; by exists (Dir mo)|].
    destruct (writable mo); injection H as _ <-.
    + eexists. cbn [fs set_fs]. rewrite lookup_insert_eq. done.
    + by exists (File mo t d).
Qed.

Lemma extractall_keeps_kind pf (dest : path) ms w r w' (q : path) n :
  extractall pf dest ms w = (r, w') ->
  fs w !! q = Some n ->
  exists n', fs w' !! q = Some n' /\ is_dir n' = is_dir n /\
    (is_dir n = true -> n' = n).
Proof.
  revert w n. induction ms as [|m ms IH]; cbn [extractall]; intros w n H Hn.
  - injection H as _ <-. by exists n.
  - apply bind_inv in H as [(e & H & _)|([] & w1 & H1 & H)].
    + by eapply extract_member_keeps_kind.
    + destruct (extract_member_keeps_kind _ _ _ _ _ _ _ _ H1 Hn) as (n1 & Hn1 & Hk1 & Hd1).
      destruct (IH _ _ H Hn1) as (n' & Hn' & Hk' & Hd').
      exists n'. split; [done|]. split; [congruence|].
      intros Hd. rewrite <- (Hd1 Hd). apply Hd'. congruence.
Qed.

(** A member that has been extracted is there, as a directory or as a
    file. *)
Lemma extract_member_target pf (dest : path) m w w' :
  extract_member pf dest m w = (Ok tt, w') ->
  exists n, fs w' !! (dest ++ m_name m) = Some n /\ is_dir n = m_dir m.
Proof.
  intros H. unfold extract_member in H.
  apply bind_Ok in H as (b & w1 & _ & H).
  apply bind_Ok in H as ([] & w2 & _ & H).
  destruct (m_dir m).
  - apply bind_Ok in H as (b' & w3 & H3 & H).
    unfold path_isdir in H3. injection H3 as <- <-.
    match type of H with
    | context [if ?x then _ else _] => destruct x eqn:E
    end.
    + injection H as <-.
      match type of E with
      | context [match ?y with _ => _ end] => destruct y as [[mo|? ? ?]|] eqn:E'
      end; try done.
      exists (Dir mo). split; [exact E'|done].
    + apply create_inv in H as [(_ & _ & ->)|(? & [=] & _)].
      cbn [fs set_fs]. rewrite lookup_insert_eq. by eexists.
  - apply write_bytes_Ok in H as (mo & -> & _).
    cbn [fs set_fs]. rewrite lookup_insert_eq. by eexists.
Qed.

Lemma extractall_targets pf (dest : path) ms w w' m :
  extractall pf dest ms w = (Ok tt, w') ->
  m ∈ ms ->
  exists n, fs w' !! (dest ++ m_name m) = Some n /\ is_dir n = m_dir m.
Proof.
  revert w. induction ms as [|m0 ms IH]; cbn [extractall]; intros w H Hm.
  - by apply elem_of_nil in Hm.
  - apply bind_Ok in H as ([] & w1 & H1 & H).
    apply elem_of_cons in Hm as [->|Hm]; [|by eapply IH].
    destruct (extract_member_target _ _ _ _ _ H1) as (n & Hn & Hk).
    destruct (extractall_keeps_kind _ _ _ _ _ _ _ _ H Hn) as (n' & Hn' & Hk' & _).
    exists n'. split; [done|congruence].
Qed.

(** The steps behind the decompression keep what is there, kind by
    kind. *)
Lemma extract_finish_keeps_kind pf self wx w4 w5 w' (q : path) n :
  is_tree (fs wx) ->
  extract_chmod pf self wx = (Ok tt, w4) ->
  extract_patch pf self w4 = (Ok tt, w5) ->
  extract_svn pf self w5 = (Ok tt, w') ->
  fs wx !! q = Some n ->
  exists n', fs w' !! q = Some n' /\ is_dir n' = is_dir n.
Proof.
  intros Htx H4 H5 H6 Hn.
  assert (exists n4, fs w4 !! q = Some n4 /\ is_dir n4 = is_dir n) as (n4 & Hn4 & Hk4).
  { destruct (extract_chmod_Ok pf self wx Htx) as (w4' & E4 & Hmode).
    rewrite E4 in H4. injection H4 as ->. rewrite Hmode, Hn.
    destruct (is_script_of _ q); [|by exists n].
    exists (set_mode 493 n). split; [done|]. by destruct n. }
  assert (exists n5, fs w5 !! q = Some n5 /\ is_dir n5 = is_dir n) as (n5 & Hn5 & Hk5).
  { apply extract_patch_Ok in H5 as (m0 & t0 & pre & lines & Hpre & _ & ->).
    cbn [fs set_fs]. destruct (decide (q = cmakefile self)) as [->|Hne].
    - rewrite lookup_insert_eq. eexists. split; [done|].
      unfold path in *. rewrite Hpre in Hn4. injection Hn4 as <-. by rewrite <- Hk4.
    - rewrite lookup_insert_ne by done. by exists n4. }
  apply extract_svn_Ok in H6.
  destruct (tuple_lt (version_tuple self) [3; 6; 0]); [|subst w'; by exists n5].
  destruct (fs w5 !! svn_hfile self) eqn:Es; [subst w'; by exists n5|].
  subst w'. cbn [fs set_fs]. rewrite lookup_insert_ne; [by exists n5|].
  intros <-. unfold path in *. congruence.
Qed.

(** X20: in a well-formed file system, when [extract] with overwriting
    returns, every member of the archive is there: the target of a
    directory member is a directory, the target of a file member is a
    file, and everything above a target exists. *)
Theorem extract_holds_every_member pf self w w' :
  is_tree (fs w) ->
  extract pf self true w = (Ok tt, w') ->
  exists mode t data ms,
    fs (snd (extract_fetch pf self w)) !! zippath self = Some (File mode t data) /\
    zip_members pf data = Some ms /\
    forall m, m ∈ ms ->
      (exists n, fs w' !! (root self ++ m_name m) = Some n /\ is_dir n = m_dir m) /\
      (forall q : path, q `prefix_of` root self ++ m_name m -> is_Some (fs w' !! q)).
Proof.
  intros Ht H.
  destruct (extract_steps _ _ _ _ H Ht)
    as (wf & wc & mode & t & data & ms & wx & w4 & w5 &
        Hf & Hc & Ewc & Hzf & Hzc & Hms & Hx & H4 & H5 & H6 & Htc & Htx).
  exists mode, t, data, ms. rewrite Hf. cbn [snd]. split; [done|]. split; [done|].
  intros m Hm.
  destruct (extractall_targets _ _ _ _ _ _ Hx Hm) as (n & Hn & Hk).
  destruct (extract_finish_keeps_kind _ _ _ _ _ _ _ _ Htx H4 H5 H6 Hn) as (n' & Hn' & Hk').
  split; [exists n'; split; [done|congruence]|].
  intros q Hq.
  assert (is_tree (fs w')) as Ht'.
  { eapply keeps_tree_extract_svn; [done|]. eapply keeps_tree_extract_patch; [done|].
    by eapply keeps_tree_extract_chmod. }
  apply (is_tree_above _ (root self ++ m_name m)); [done|by eexists|done].
Qed.

Lemma extract_holds_every_member_witness :
  is_Some (fs (snd (extract posix sample_self true rooted_world))
             !! ["work"; "geos"; "geos-3.5.0"; "capi"]).
Proof.
  destruct (extract_holds_every_member posix sample_self rooted_world
              (snd (extract posix sample_self true rooted_world)))
    as (mode & t & data & ms & Hz & Hms & Hall).
  - apply is_tree_b_sound. vm_compute. reflexivity.
  - apply run_Ok. vm_compute. reflexivity.
  - vm_compute in Hz. injection Hz as <- <- <-.
    vm_compute in Hms. injection Hms as <-.
    destruct (Hall (Member ["geos-3.5.0"; "capi"; "CMakeLists.txt"] false
                      (encode "add_library(geos_c)" ++ [LF] ++
                       encode "target_link_libraries(geos_c geos)" ++ [LF]))) as [_ Hup].
    + vm_compute. do 2 right. left.
    + apply Hup. exists ["CMakeLists.txt"]. reflexivity.
Defined.

(** ** A temporary instance *)

Lemma extract_member_keeps_dir pf (dest : path) m w r w' (q : path) mo :
  extract_member pf dest m w = (r, w') ->
  fs w !! q = Some (Dir mo) -> fs w' !! q = Some (Dir mo).
Proof.
  intros H Hq.
  destruct (extract_member_keeps_kind _ _ _ _ _ _ _ _ H Hq) as (n' & Hn' & _ & Hd).
  by rewrite Hn', (Hd eq_refl).
Qed.









(** ** Which releases count as old *)

Lemma tuple_lt_360 a b rest :
  tuple_lt (a :: b :: rest) [3; 6; 0] = true <->
  a < 3 \/ (a = 3 /\ (b < 6 \/ (b = 6 /\
    match rest with [] => True | c :: _ => c < 0 end))).
Proof.
  cbn [tuple_lt]. destruct (Z.eqb_spec a 3) as [->|Ea].
  2:{ rewrite Z.ltb_lt. split; [by left|lia]. }
  destruct (Z.eqb_spec b 6) as [->|Eb].
  2:{ rewrite Z.ltb_lt. split; [intros Hb; right; split; [done|by left]|lia]. }
  destruct rest as [|c rest].
  { split; [intros _; right; split; [done|by right]|done]. }
  cbn [tuple_lt]. destruct (Z.eqb_spec c 0) as [->|Ec].
  { destruct rest; (split; [done|lia]). }
  rewrite Z.ltb_lt. split; [|lia].
  intros Hc. right. split; [done|]. by right.
Qed.

(** X22: which releases get the NMake generator on Windows: exactly the
    versions major.minor... with major below 3, or major 3 and minor
    below 6, or major 3 and minor 6 with nothing behind (so "3.6" counts
    as older than 3.6.0) or with a negative third field. *)
Theorem legacy_generator_versions pf self d a b rest :
  version_tuple self = a :: b :: rest ->
  os_name pf = "nt" ->
  (In "-G" (config_opts pf self d) <->
   a < 3 \/ (a = 3 /\ (b < 6 \/ (b = 6 /\
     match rest with [] => True | c :: _ => c < 0 end)))).
Proof.
  intros Hv Hnt. rewrite <- tuple_lt_360, <- Hv.
  unfold config_opts. rewrite (on_nt_true _ Hnt). cbn [andb].
  destruct (tuple_lt (version_tuple self) [3; 6; 0]).
  - split; [done|]. intros _. by left.
  - split; [|done]. intros [H|[H|[H|[]]]]; [|done..].
    apply (f_equal String.length) in H. rewrite string_app_length in H.
    simpl in H. lia.
Qed.

Lemma legacy_generator_versions_witness :
  In "-G" (config_opts windows (Build_GeosLibrary [3; 6] false ["work"; "geos"]) ["opt"]).
Proof.
  apply (legacy_generator_versions windows (Build_GeosLibrary [3; 6] false ["work"; "geos"])
           ["opt"] 3 6 []); [reflexivity|reflexivity|].
  right. split; [reflexivity|]. right. split; [reflexivity|exact I].
Defined.

(** ** Further edge cases *)

(** X23: without an install directory and without a known home
    directory, a [build] that returns has configured the install prefix
    [~/.local/share/libgeos] read relative to the working directory: a
    directory named "~" below the directory the call was made from. *)
Theorem build_default_prefix_without_home pf self njobs w w' :
  home pf = None ->
  build pf self None njobs w = (Ok tt, w') ->
  calls w' = calls w ++
    [ configure_call pf self (cwd w ++ ["~"; ".local"; "share"; "libgeos"]);
      build_call pf self njobs ].
Proof.
  intros Hh H. unfold build in H.
  apply bind_Ok in H as ([] & wa & Ha & H).
  apply keeps_process_extract in Ha as [Hca Hla].
  apply bind_Ok in H as (d & wb & Hb & H).
  unfold default_installdir in Hb. rewrite Hh in Hb.
  apply bind_Ok in Hb as (here & wh & Hg & Hb).
  apply getcwd_inv in Hg as [-> Hhere]. specialize (Hhere here eq_refl). subst here.
  injection Hb as <- <-.
  apply bind_Ok in H as (c & wc & Hc & H).
  apply getcwd_inv in Hc as [-> _].
  apply try_finally_Ok in H as (w1 & Hbody & Hfin).
  apply chdir_calls in Hfin.
  apply build_body_calls in Hbody as (l & Hl & _ & Hok).
  rewrite (Hok eq_refl) in Hl. congruence.
Qed.

Lemma build_default_prefix_without_home_witness :
  map inv_argv (calls (snd (build posix_without_home sample_self None 1 rooted_world))) =
    [ [ "cmake"; ".."; "-DCMAKE_INSTALL_PREFIX=/work/~/.local/share/libgeos";
        "-DGEOS_ENABLE_TESTS=OFF"; "-DCMAKE_BUILD_TYPE=Release" ];
      [ "cmake"; "--build"; "."; "--config"; "Release"; "--target"; "install" ] ].
Proof.
  rewrite (build_default_prefix_without_home posix_without_home sample_self 1 rooted_world
             (snd (build posix_without_home sample_self None 1 rooted_world)) eq_refl).
  - reflexivity.
  - apply run_Ok. vm_compute. reflexivity.
Defined.



(** X25: the overwrite flag matters only for a destination that is
    there.  When the destination directory does not exist once the archive
    has been fetched, [extract] without overwriting and [extract] with
    overwriting end in the same way, in the same world. *)
Theorem extract_overwrite_irrelevant_without_tree pf self w :
  fs (snd (extract_fetch pf self w)) !! zipfold self = None ->
  extract pf self false w = extract pf self true w.
Proof.
  intros Hnone. unfold extract.
  destruct (extract_fetch pf self w) as [[[]|e] wf] eqn:Hf;
    [|by rewrite !(bind_eq_Raise _ _ _ _ _ Hf)].
  rewrite !(bind_eq _ _ _ _ _ Hf). cbn [snd] in Hnone.
  assert (forall o, extract_clear pf self o wf = (Ok tt, wf)) as Hc.
  { intros o. unfold extract_clear. rewrite (bind_eq _ _ _ _ _ (path_exists_eq _ _)).
    rewrite bool_decide_eq_false_2; [done|]. rewrite Hnone. by intros [? ?]. }
  by rewrite !(bind_eq _ _ _ _ _ (Hc _)).
Qed.

Lemma extract_overwrite_irrelevant_without_tree_witness :
  fst (extract posix sample_self false rooted_world) = Ok tt.
Proof.
  rewrite (extract_overwrite_irrelevant_without_tree posix sample_self rooted_world).
  - vm_compute. reflexivity.
  - vm_compute. reflexivity.
Defined.
